(** * GridWeaver: the hydration pipeline and the row-request translator

    A shallow embedding of
      - [libs/core/src/lib/expressions.ts]  (the [date] filter and [formatDate]),
      - [libs/react/src/lib/AgTable.tsx]    ([parseSort], [fromSerializedToColumnDef],
        the [valueFormatter] closure and the query built by [getRows]),
    followed by the properties of the specification that concern them.

    Conventions of the embedding.
      - JavaScript numbers that occur here are row indexes and calendar fields;
        they are integers and are modelled by [Z].
      - Strings are modelled by [string] (8-bit characters); [toUpperCase] acts
        on the letters a-z, which is what the runtime does on ASCII text.
      - A JavaScript object used as a record or dictionary is a [gmap string value].
      - The column objects that [fromSerializedToColumnDef] receives are mutable
        and shared with its caller: they live in a [heap] and are passed by
        location.  The objects nested in a column (its parameters, its arrays)
        are held by their contents: the model tells which members such an
        object has, not whether two of them are one object.
      - The scope object of a [valueFormatter] is one object shared by the
        expressions of the array; an expression may assign to it, so that
        evaluating an expression yields the scope as it leaves it, together
        with its result.
      - The expression compiler [expressions.compile] (package angular-expressions),
        [JSON.stringify] and the parser behind [new Date(input)] belong to the
        runtime; they are parameters of the model. *)

From Stdlib Require Import ZArith String Ascii DecimalString.
From Stdlib Require DecimalZ DecimalPos.
From stdpp Require Import base gmap strings list fin_maps.

Open Scope string_scope.
Open Scope Z_scope.

Set Warnings "-register-all".

(** ** JavaScript values and string primitives *)

Module JS.

(** Values that flow through the code under study. [VAction id] is a
    caller-supplied callback, identified by [id]; [VFormatter vf] is the
    closure [(params) => { ... }] that [fromSerializedToColumnDef] creates,
    which captures the array [vf]. *)
Inductive value : Type :=
  | VUndefined
  | VNull
  | VBool (b : bool)
  | VNum (n : Z)
  | VStr (s : string)
  | VArr (elems : list value)
  | VObj (props : gmap string value)
  | VAction (id : nat)
  | VFormatter (vf : list value).

(** [ToBoolean]: what [if (v)], [!v], [a && b] and [a || b] test. *)
Definition truthy (v : value) : bool :=
  match v with
  | VUndefined | VNull => false
  | VBool b => b
  | VNum n => negb (n =? 0)
  | VStr s => negb (String.eqb s "")
  | VArr _ | VObj _ | VAction _ | VFormatter _ => true
  end.

(** [o.k]: reading a missing property gives [undefined]. *)
Definition get (o : gmap string value) (k : string) : value :=
  default VUndefined (o !! k).

(** [k in o] *)
Definition has (o : gmap string value) (k : string) : bool :=
  bool_decide (is_Some (o !! k)).

Definition props_of (v : value) : gmap string value :=
  match v with VObj o => o | _ => ∅ end.

Definition elems_of (v : value) : list value :=
  match v with VArr l => l | _ => [] end.

(** [n.toString()] for an integer [n]. *)
Definition Number_toString (n : Z) : string :=
  NilZero.string_of_int (Z.to_int n).

(** [s.charAt(i)]: the one-character string at index [i], or the empty
    string when [i] is out of range. *)
Definition charAt (s : string) (i : nat) : string :=
  match String.get i s with
  | Some c => String c ""
  | None => ""
  end.

(** [s.slice(start)] for [start >= 0]. *)
Fixpoint slice (s : string) (start : nat) {struct start} : string :=
  match start, s with
  | O, _ => s
  | S n, String _ s' => slice s' n
  | S _, "" => ""
  end.

Definition upper_ascii (c : ascii) : ascii :=
  let n := nat_of_ascii c in
  if ((97 <=? n) && (n <=? 122))%nat then ascii_of_nat (n - 32) else c.

(** [s.toUpperCase()] *)
Fixpoint toUpperCase (s : string) : string :=
  match s with
  | "" => ""
  | String c s' => String (upper_ascii c) (toUpperCase s')
  end.

(** [s.includes(sub)] *)
Fixpoint includes (s sub : string) : bool :=
  String.prefix sub s ||
  match s with
  | "" => false
  | String _ s' => includes s' sub
  end.

(** [s.split(sep)] for a separator of one character (the only use in the
    code is [split('.')]). *)
Fixpoint split (s : string) (sep : ascii) : list string :=
  match s with
  | "" => [""]
  | String c s' =>
      if Ascii.eqb c sep then "" :: split s' sep
      else match split s' sep with
           | seg :: segs => String c seg :: segs
           | [] => [String c ""]
           end
  end.

(** [s.replace(pat, rep)] with a string pattern: the first occurrence of
    [pat] is replaced.  ([rep] never contains the character $ in the code
    under study, so no replacement pattern is expanded.) *)
Fixpoint replace (s pat rep : string) : string :=
  if String.prefix pat s then rep +:+ slice s (String.length pat)
  else match s with
       | "" => ""
       | String c s' => String c (replace s' pat rep)
       end.

(** [s.padStart(2, '0')] *)
Definition padStart2 (s : string) : string :=
  match String.length s with
  | O => "00"
  | S O => "0" +:+ s
  | _ => s
  end.

(** Character tests used to reason about [replace]. *)
Fixpoint all_chars (P : ascii → bool) (s : string) : bool :=
  match s with
  | "" => true
  | String c s' => P c && all_chars P s'
  end.

(** A decimal digit or the minus sign. *)
Definition is_num_char (c : ascii) : bool :=
  let n := nat_of_ascii c in
  ((48 <=? n) && (n <=? 57))%nat || Ascii.eqb c "-".

End JS.

Import JS.

(** ** The filter library: [date] and [formatDate] (expressions.ts) *)

Module Expressions.

(** A valid [Date] object, seen through the getters that [formatDate]
    calls (local time). *)
Record Date := {
  getFullYear : Z;
  getMonth : Z;
  getDate : Z;
  getHours : Z;
  getMinutes : Z;
  getSeconds : Z
}.

(** [const pad = (n) => n.toString().padStart(2, '0')] *)
Definition pad (n : Z) : string := padStart2 (Number_toString n).

Definition formatDate (date : Date) (format : string) : string :=
  let hours := getHours date in
  let hours12 := if Z.rem hours 12 =? 0 then 12 else Z.rem hours 12 in
  let ampm := if 12 <=? hours then "PM" else "AM" in
  let r := replace format "YYYY" (Number_toString (getFullYear date)) in
  let r := replace r "MM" (pad (getMonth date + 1)) in
  let r := replace r "DD" (pad (getDate date)) in
  let r := replace r "hh" (pad hours12) in
  let r := replace r "HH" (pad hours) in
  let r := replace r "mm" (pad (getMinutes date)) in
  let r := replace r "ss" (pad (getSeconds date)) in
  replace r "A" ampm.

Section DateFilter.
(** [new Date(input)] followed by the test [!isNaN(date.getTime())]:
    [None] is an invalid date. *)
Variable Date_parse : string → option Date.

(** [expressions.filters['date']]; [opts = None] is a call without the
    optional pattern. *)
Definition date (input : value) (opts : option string) : value :=
  match input with
  | VStr s =>
      if truthy input && negb (String.eqb s "") then
        match Date_parse s with
        | Some d =>
            let format :=
              match opts with
              | Some o => if truthy (VStr o) then o else "MM/DD/YYYY hh:mm:ss A"
              | None => "MM/DD/YYYY hh:mm:ss A"
              end in
            VStr (formatDate d format)
        | None => input
        end
      else if truthy input then input else VStr ""
  | _ => if truthy input then input else VStr ""
  end.
End DateFilter.

End Expressions.

Import Expressions.

(** ** Row-request translator: [parseSort] and the query of [getRows] *)

Module AgTable.

(** One entry of [request.sortModel]. *)
Record SortModelItem := { colId : string; sort : string }.

(** One entry of [request.filterModel], as the code casts it:
    [val as { type: string; filter: string }]. *)
Record FilterVal := { type : string; filter : string }.

(** [params.request] of [IServerSideGetRowsParams]; [None] is an absent
    ([undefined]) member. *)
Record Request := {
  startRow : option Z;
  endRow : option Z;
  sortModel : option (list SortModelItem);
  filterModel : option (gmap string FilterVal)
}.

(** The object returned by [parseSort]. *)
Record Query := {
  q_filter : gmap string value;
  q_limit : Z;
  q_offset : Z;
  q_orderBy : value
}.

(** The callback given to [Object.entries(filterModel).map]. *)
Definition filter_entry (key : string) (filterVal : FilterVal) : string * value :=
  let operator := "$eq" in
  let operator :=
    if String.eqb (type filterVal) "contains" then
      if negb (String.eqb key "id") then "$iLike" else operator
    else operator in
  let operator :=
    if String.eqb (type filterVal) "notContains" then
      if negb (String.eqb key "id") then "$notILike" else operator
    else operator in
  (key,
   if String.eqb operator "$eq" then VStr (filter filterVal)
   else VObj {[ operator := VStr ("%" +:+ filter filterVal +:+ "%") ]}).

Definition parseSort (request : Request) : Query :=
  let startRow := default 0 (startRow request) in
  let endRow := default 0 (endRow request) in
  let filterModel := default ∅ (filterModel request) in
  let limit := endRow - startRow in
  let sort :=
    default {| colId := "createdAt"; sort := "desc" |}
            (sortModel request ≫= head) in
  let filter : gmap string value :=
    list_to_map (uncurry filter_entry <$> map_to_list filterModel) in
  let orderBy := VArr [VArr [VStr (colId sort); VStr (AgTable.sort sort)]] in
  let orderBy :=
    if includes (colId sort) "." then
      let parts := split (colId sort) "." in
      let modelName := default "" (parts !! 0%nat) in
      let columnName := default "" (parts !! 1%nat) in
      let model := toUpperCase (charAt modelName 0) +:+ slice modelName 1 in
      VArr [VArr [VObj {[ "model" := VStr model; "as" := VStr modelName ]};
                  VStr columnName;
                  VStr (AgTable.sort sort)]]
    else orderBy in
  {| q_filter := filter; q_limit := limit; q_offset := startRow; q_orderBy := orderBy |}.

(** [serialized.http] *)
Record TableHttpSpec := {
  url : string;
  params : option (gmap string value)
}.

Section GetRows.
(** [JSON.stringify] *)
Variable JSON_stringify : value → string.

(** The object literal [{ ...filter, ...(serialized.http.params || {}) }]:
    the later spread wins on a common key ([∪] on maps is left-biased). *)
Definition getRows_filter (http : TableHttpSpec) (filter : gmap string value)
  : gmap string value :=
  default ∅ (params http) ∪ filter.

(** The [URLSearchParams] that [getRows] builds before it calls [fetch]. *)
Definition getRows_queryParams (http : TableHttpSpec) (request : Request)
  : gmap string string :=
  let q := parseSort request in
  let queryParams : gmap string string := ∅ in
  let queryParams :=
    <["filter" := JSON_stringify (VObj (getRows_filter http (q_filter q)))]> queryParams in
  let queryParams := <["limit" := Number_toString (q_limit q)]> queryParams in
  let queryParams := <["offset" := Number_toString (q_offset q)]> queryParams in
  let queryParams := <["orderBy" := JSON_stringify (q_orderBy q)]> queryParams in
  queryParams.
End GetRows.

(** *** Hydration of the column definitions *)

(** Column objects are shared with the caller and updated in place: they
    are addressed by location in a heap of objects. *)
Abbreviation loc := positive.
Abbreviation heap := (gmap positive (gmap string value)).

(** The own enumerable properties copied by an object spread [{ ...v }]. *)
Definition spread (v : value) : gmap string value :=
  match v with
  | VObj o => o
  | VArr l =>
      list_to_map (imap (λ i x, (Number_toString (Z.of_nat i), x)) l)
  | VStr s =>
      list_to_map (imap (λ i c, (Number_toString (Z.of_nat i), VStr (String c "")))
                        (list_ascii_of_string s))
  | _ => ∅
  end.

Definition isArray (v : value) : bool :=
  match v with VArr _ => true | _ => false end.

(** The test [('cellRenderer' in c && cellRendererAction && c.cellRendererParams)]
    on a column object. *)
Definition injects (cellRendererAction : option value)
    (obj : gmap string value) : bool :=
  has obj "cellRenderer"
  && from_option truthy false cellRendererAction
  && truthy (get obj "cellRendererParams").

(** The column object after the assignment
    [c.cellRendererParams = { ...c.cellRendererParams, onAction: cellRendererAction }]. *)
Definition with_action (cellRendererAction : option value)
    (obj : gmap string value) : gmap string value :=
  <["cellRendererParams" :=
      VObj (<["onAction" := default VUndefined cellRendererAction]>
              (spread (get obj "cellRendererParams")))]> obj.

(** The callback given to [serialized.map]: it runs on the column at
    location [c], may update that object in place, and returns the location
    of the resulting column definition, which is [c] itself or a newly
    allocated object [{ ...c, valueFormatter }]. *)
Definition hydrate_column (cellRendererAction : option value)
    (h : heap) (c : loc) : heap * loc :=
  let obj := default ∅ (h !! c) in
  let h :=
    if injects cellRendererAction obj
    then <[c := with_action cellRendererAction obj]> h
    else h in
  let obj := default ∅ (h !! c) in
  if negb (truthy (get obj "valueFormatter"))
     || negb (isArray (get obj "valueFormatter"))
     || (length (elems_of (get obj "valueFormatter")) =? 0)%nat
  then (h, c)
  else
    let vf := elems_of (get obj "valueFormatter") in
    let valueFormatter := VFormatter vf in
    let l := fresh (dom h) in
    (<[l := <["valueFormatter" := valueFormatter]> obj]> h, l).

(** [serialized.map(...)]: the columns are visited from left to right. *)
Fixpoint fromSerializedToColumnDef (serialized : list loc)
    (cellRendererAction : option value) (h : heap) : heap * list loc :=
  match serialized with
  | [] => (h, [])
  | c :: rest =>
      let '(h, d) := hydrate_column cellRendererAction h c in
      let '(h, ds) := fromSerializedToColumnDef rest cellRendererAction h in
      (h, d :: ds)
  end.

(** What hydration may do to a column object [o] found at location [l],
    given the locations [S] of the serialized array: leave it as it is, or,
    for a member of the array that meets the condition, perform the
    assignment. *)
Definition hydrated_as (cellRendererAction : option value) (S : list loc)
    (l : loc) (o o' : gmap string value) : Prop :=
  o' = o ∨
  (l ∈ S ∧ injects cellRendererAction o = true
   ∧ o' = with_action cellRendererAction o).

(** *** The hydrated formatter *)

(** A call either returns a value or throws one. *)
Inductive outcome (A : Type) : Type :=
  | Return (a : A)
  | Throw (e : value).
Arguments Return {A} a.
Arguments Throw {A} e.

#[export] Instance outcome_bind : MBind outcome := λ A B f m,
  match m with
  | Return a => f a
  | Throw e => Throw e
  end.

(** The scope object literal built from [params]. *)
Definition make_scope (params : gmap string value) : gmap string value :=
  {[ "api" := get params "api";
     "colDef" := get params "colDef";
     "node" := get params "node";
     "value" := get params "value" ]}.

Section Formatter.
(** [expressions.compile]: compiling may throw.  The compiled expression is
    run on the scope object: it may update it (the expression language has
    assignments), and it returns a value or throws.  The scope it leaves is
    the object that the next expression is run on. *)
Variable compile :
  value → outcome (gmap string value → gmap string value * outcome value).

(** [for (const exp of vf) { const exec = compile(exp); result = exec(scope); }]
    followed by [return result]; [scope] is the one object shared by the
    iterations. *)
Fixpoint for_of (vf : list value) (scope : gmap string value) (result : value)
  : outcome value :=
  match vf with
  | [] => Return result
  | exp :: rest =>
      exec ← compile exp;
      let '(scope, r) := exec scope in
      result ← r;
      for_of rest scope result
  end.

(** The closure [(params: ValueFormatterParams) => { ... }] for the
    captured array [vf].  The scope object is made anew at each call. *)
Definition valueFormatter (vf : list value) (params : gmap string value)
  : outcome value :=
  let scope := make_scope params in
  let result := VUndefined in
  for_of vf scope result.

(** One expression on its own, [compile(exp)(scope)]: the scope it leaves
    and its outcome. *)
Definition evaluate (exp : value) (scope : gmap string value)
  : gmap string value * outcome value :=
  match compile exp with
  | Return exec => exec scope
  | Throw e => (scope, Throw e)
  end.

(** The scope left by the expressions [exps], run in order from [scope],
    when each of them returns normally. *)
Fixpoint scope_after (exps : list value) (scope : gmap string value)
  : option (gmap string value) :=
  match exps with
  | [] => Some scope
  | exp :: rest =>
      match evaluate exp scope with
      | (scope, Return _) => scope_after rest scope
      | (_, Throw _) => None
      end
  end.

(** Calling a value with one argument object, as the grid calls the
    [valueFormatter] of a column definition.  (A caller-supplied callback
    returns nothing.) *)
Definition call (f : value) (params : gmap string value) : outcome value :=
  match f with
  | VFormatter vf => valueFormatter vf params
  | VAction _ => Return VUndefined
  | _ => Throw (VStr "TypeError: not a function")
  end.
End Formatter.

End AgTable.

Import AgTable.


(** ** The specification's wording

    The definitions of this module follow the sentences of the
    specification, not the code; the code is compared with them below. *)

Module Spec.

(** "[contains] -> case-insensitive substring match (wrapped with wildcard
    markers on both sides), [notContains] -> negated case-insensitive
    substring match, anything else -> exact-equality match.  Exception: a
    field literally named [id] is always treated as exact-equality". *)
Definition filter_rule (key : string) (fv : FilterVal) : value :=
  if decide (key = "id") then VStr (filter fv)
  else if decide (type fv = "contains") then
    VObj {[ "$iLike" := VStr ("%" +:+ filter fv +:+ "%") ]}
  else if decide (type fv = "notContains") then
    VObj {[ "$notILike" := VStr ("%" +:+ filter fv +:+ "%") ]}
  else VStr (filter fv).

(** "the path is split on the first dot into (relation name, field name)":
    what precedes the first dot, and all that follows it. *)
Fixpoint split_first_dot (s : string) : string * string :=
  match s with
  | "" => ("", "")
  | String c s' =>
      if Ascii.eqb c "." then ("", s')
      else let '(rel, field) := split_first_dot s' in (String c rel, field)
  end.

(** "the relation name is capitalized" *)
Definition capitalize (s : string) : string :=
  match s with
  | "" => ""
  | String c s' => String (upper_ascii c) s'
  end.

(** The order-by entry for one sort entry: structured for a dotted column
    id, flat otherwise. *)
Definition structured_entry (rel field dir : string) : value :=
  VArr [VArr [VObj {[ "model" := VStr (capitalize rel); "as" := VStr rel ]};
              VStr field; VStr dir]].

Definition order_rule (item : SortModelItem) : value :=
  if includes (colId item) "." then
    let '(rel, field) := split_first_dot (colId item) in
    structured_entry rel field (sort item)
  else VArr [VArr [VStr (colId item); VStr (sort item)]].

(** "exactly these named slots": the four slots that name the grid API,
    the column, the node and the cell value, and a fifth slot, of whatever
    name [dt], for the date/time utilities. *)
Definition four_slots : gset string := {[ "api"; "colDef"; "node"; "value" ]}.

Definition five_slots (dt : string) : gset string := four_slots ∪ {[ dt ]}.

(** The getters of a valid [Date] stay within the calendar ranges. *)
Definition wf_date (d : Date) : Prop :=
  0 ≤ getMonth d ≤ 11 ∧ 1 ≤ getDate d ≤ 31 ∧ 0 ≤ getHours d ≤ 23 ∧
  0 ≤ getMinutes d ≤ 59 ∧ 0 ≤ getSeconds d ≤ 59.

(** The hour on the 12-hour clock and its marker. *)
Definition hour12 (d : Date) : Z := (getHours d + 11) mod 12 + 1.
Definition marker (d : Date) : string :=
  if decide (getHours d < 12) then "AM" else "PM".

(** The pattern [MM/DD/YYYY hh:mm:ss A] filled in, field by field. *)
Definition default_rendering (d : Date) : string :=
  pad (getMonth d + 1) +:+ "/" +:+ pad (getDate d) +:+ "/" +:+
  Number_toString (getFullYear d) +:+ " " +:+
  pad (hour12 d) +:+ ":" +:+ pad (getMinutes d) +:+ ":" +:+
  pad (getSeconds d) +:+ " " +:+ marker d.

End Spec.

(** ** Sample inputs used by the examples *)

Module Samples.

Definition sort_request (id dir : string) : Request :=
  {| startRow := None; endRow := None;
     sortModel := Some [{| colId := id; sort := dir |}];
     filterModel := None |}.

(** A table whose static parameters fix [status], queried with a grid
    filter on [status] and on [name]. *)
Definition http_fixed_status : TableHttpSpec :=
  {| url := "/api/accounts"; params := Some {[ "status" := VStr "active" ]} |}.

Definition filtered_request : Request :=
  {| startRow := Some 0; endRow := Some 50; sortModel := None;
     filterModel :=
       Some {[ "status" := {| type := "equals"; filter := "closed" |};
               "name" := {| type := "contains"; filter := "ann" |} ]} |}.

(** A stand-in for [JSON.stringify] that only tells apart the [status]
    member of an object. *)
Definition show_status (v : value) : string :=
  match get (props_of v) "status" with
  | VStr s => s
  | _ => ""
  end.

(** An instance of the expression compiler, enough to run examples: the
    identifiers [value] and [colDef.field] read the scope; the assignment
    [value = 'changed'] sets the slot [value] of the scope and returns the
    text; the source [value +] is rejected when it is compiled (an operator
    without its right operand); [api.fail()] compiles, and when it is run it
    calls the method [fail] of the grid API, a host function that throws (a
    missing method gives [undefined]); any other string evaluates to
    [undefined]; a source that is not a string is rejected. *)
Definition engine (exp : value)
  : outcome (gmap string value → gmap string value * outcome value) :=
  match exp with
  | VStr src =>
      if String.eqb src "value" then
        Return (λ scope, (scope, Return (get scope "value")))
      else if String.eqb src "colDef.field" then
        Return (λ scope, (scope, Return (get (props_of (get scope "colDef")) "field")))
      else if String.eqb src "value = 'changed'" then
        Return (λ scope, (<["value" := VStr "changed"]> scope,
                          Return (VStr "changed")))
      else if String.eqb src "value +" then
        Throw (VStr "Syntax Error: unexpected end of expression")
      else if String.eqb src "api.fail()" then
        Return (λ scope,
                  (scope,
                   match get (props_of (get scope "api")) "fail" with
                   | VAction _ => Throw (VStr "Error: fail")
                   | _ => Return VUndefined
                   end))
      else Return (λ scope, (scope, Return VUndefined))
  | _ => Throw (VStr "TypeError: src must be a string")
  end.

(** The [params] of one cell render; the grid API of the sample has a method
    [fail]. *)
Definition cell_params : gmap string value :=
  {[ "api" := VObj {[ "fail" := VAction 7 ]};
     "colDef" := VObj {[ "field" := VStr "name" ]};
     "node" := VObj ∅; "value" := VStr "ann"; "data" := VObj ∅ ]}.

(** A stand-in for the date parser: it knows one ISO date-time (read as
    local time) and rejects every other string. *)
Definition parse_one (input : string) : option Date :=
  if String.eqb input "2024-03-05T14:07:09" then
    Some {| getFullYear := 2024; getMonth := 2; getDate := 5;
            getHours := 14; getMinutes := 7; getSeconds := 9 |}
  else None.

(** A heap with one column that has a renderer with parameters and a
    formatter, and a callback. *)
Definition menu_column : gmap string value :=
  {[ "field" := VStr "name";
     "cellRenderer" := VStr "EllipsisMenu";
     "cellRendererParams" := VObj {[ "items" := VArr [VStr "edit"] ]};
     "valueFormatter" := VArr [VStr "value"] ]}.

Definition one_column_heap : gmap positive (gmap string value) :=
  {[ 1%positive := menu_column ]}.

Definition on_option_clicked : option value := Some (VAction 0).

(** Stand-ins for [JSON.stringify] and [JSON.parse] on column states: the
    text of the one state of the examples, and its reading back. *)
Definition show_state (v : value) : string := "[{colId:name,sort:asc}]".

Definition read_state (text : string) : option value :=
  if String.eqb text "[{colId:name,sort:asc}]"
  then Some (VArr [VObj {[ "colId" := VStr "name"; "sort" := VStr "asc" ]}])
  else None.

(** A heap with one column that has a formatter of two expressions. *)
Definition described_column : gmap string value :=
  {[ "field" := VStr "name";
     "valueFormatter" := VArr [VStr "colDef.field"; VStr "value"] ]}.

Definition described_heap : gmap positive (gmap string value) :=
  {[ 1%positive := described_column ]}.





End Samples.

(** ** More string and array primitives *)

Module JSExtra.

(** [s.split(sep)] for a separator that is not empty: the text is cut at
    the occurrences of [sep], read from left to right without overlap.
    [skip] counts the characters of a matched separator that are still to be
    passed. *)
Fixpoint split_at (sep s : string) (skip : nat) : list string :=
  match s with
  | "" => [""]
  | String c s' =>
      match skip with
      | S k => split_at sep s' k
      | O =>
          if String.prefix sep s
          then "" :: split_at sep s' (String.length sep - 1)
          else match split_at sep s' 0 with
               | seg :: segs => String c seg :: segs
               | [] => [String c ""]
               end
      end
  end.

(** [s.split(sep)]: with the empty separator the text is cut into its
    characters (and the empty text gives the empty array). *)
Definition String_split (s sep : string) : list string :=
  match sep with
  | "" => (λ c, String c "") <$> list_ascii_of_string s
  | _ => split_at sep s 0
  end.

(** The concatenation done by [Array.prototype.join] once the elements are
    strings. *)
Fixpoint join_strings (l : list string) (sep : string) : string :=
  match l with
  | [] => ""
  | [x] => x
  | x :: rest => x +:+ sep +:+ join_strings rest sep
  end.

Section ToString.
(** The text of a function value is left to the runtime. *)
Variable Function_toString : value → string.

(** [String(v)]; an array is joined with commas, its [undefined] and [null]
    elements giving the empty string. *)
Fixpoint ToString (v : value) : string :=
  match v with
  | VUndefined => "undefined"
  | VNull => "null"
  | VBool true => "true"
  | VBool false => "false"
  | VNum n => Number_toString n
  | VStr s => s
  | VArr l =>
      join_strings
        (List.map (λ x, match x with
                        | VUndefined | VNull => ""
                        | _ => ToString x
                        end) l) ","
  | VObj _ => "[object Object]"
  | VAction _ | VFormatter _ => Function_toString v
  end.

(** The text of one element inside [join]. *)
Definition element_text (x : value) : string :=
  match x with
  | VUndefined | VNull => ""
  | _ => ToString x
  end.

(** [l.join(sep)] *)
Definition Array_join (l : list value) (sep : string) : string :=
  join_strings (element_text <$> l) sep.
End ToString.

End JSExtra.

(** ** The other filters of the library (expressions.ts) *)

Module Filters.

(** Text of the ASCII range.  On such text [toUpperCase] of the runtime
    changes the letters a-z and nothing else, as the model has it; outside
    of it the runtime follows the Unicode tables (and may lengthen the
    text), so that what is stated of the case of letters is stated for
    ASCII text. *)
Definition is_ascii_char (c : ascii) : bool := (nat_of_ascii c <? 128)%nat.

Definition ascii_text (s : string) : Prop := all_chars is_ascii_char s = true.

(** An input whose strings (the string itself, or the string elements of
    the array) are ASCII text. *)
Definition ascii_input (input : value) : Prop :=
  match input with
  | VStr s => ascii_text s
  | VArr l => Forall (λ x, match x with VStr s => ascii_text s | _ => True end) l
  | _ => True
  end.

(** [s.charAt(0).toUpperCase() + s.slice(1)] *)
Definition capitalize_string (s : string) : string :=
  toUpperCase (charAt s 0) +:+ slice s 1.

(** [expressions.filters['capitalize']] *)
Definition capitalize (input : value) : value :=
  match input with
  | VArr l =>
      VArr ((λ s, match s with
                  | VStr x => VStr (capitalize_string x)
                  | _ => s
                  end) <$> l)
  | VStr x => VStr (capitalize_string x)
  | _ => input
  end.

(** [expressions.filters['split']] *)
Definition split (input : value) (char : string) : value :=
  match input with
  | VStr x => VArr (VStr <$> JSExtra.String_split x char)
  | _ => input
  end.

(** [expressions.filters['toUpper']] *)
Definition toUpper (input : value) : value :=
  match input with
  | VStr x => VStr (toUpperCase x)
  | _ => input
  end.

Section Join.
Variable Function_toString : value → string.

(** [expressions.filters['join']] *)
Definition join (input : value) (separator : string) : value :=
  match input with
  | VArr l => VStr (JSExtra.Array_join Function_toString l separator)
  | _ => input
  end.
End Join.

(** [expressions.filters['length']] *)
Definition length (input : value) : value :=
  match input with
  | VArr l => VNum (Z.of_nat (List.length l))
  | VStr x => VNum (Z.of_nat (String.length x))
  | _ => VNum 0
  end.

(** The test of [default]: [null], [undefined], the empty string or the
    empty array. *)
Definition blank (input : value) : bool :=
  match input with
  | VNull | VUndefined => true
  | VStr x => String.eqb x ""
  | VArr l => (List.length l =? 0)%nat
  | _ => false
  end.

(** [expressions.filters['default']] *)
Definition default (input defVal : value) : value :=
  if blank input then defVal else input.

End Filters.

(** ** Date patterns, token by token *)

Module Pattern.

(** The tokens that [formatDate] looks for, in the order of its calls of
    [replace]. *)
Inductive token := YYYY | MM | DD | hh | HH | mm | ss | A.

#[export] Instance token_eq_dec : EqDecision token.
Proof. solve_decision. Defined.

Definition token_text (t : token) : string :=
  match t with
  | YYYY => "YYYY" | MM => "MM" | DD => "DD" | hh => "hh"
  | HH => "HH" | mm => "mm" | ss => "ss" | A => "A"
  end.

(** The letter a token is made of. *)
Definition token_letter (t : token) : ascii :=
  match t with
  | YYYY => "Y" | MM => "M" | DD => "D" | hh => "h"
  | HH => "H" | mm => "m" | ss => "s" | A => "A"
  end%char.

(** What [formatDate] puts in the place of a token. *)
Definition token_value (d : Date) (t : token) : string :=
  let hours := getHours d in
  match t with
  | YYYY => Number_toString (getFullYear d)
  | MM => pad (getMonth d + 1)
  | DD => pad (getDate d)
  | hh => pad (if Z.rem hours 12 =? 0 then 12 else Z.rem hours 12)
  | HH => pad hours
  | mm => pad (getMinutes d)
  | ss => pad (getSeconds d)
  | A => if 12 <=? hours then "PM" else "AM"
  end.

(** A pattern seen as a sequence of literal text and tokens. *)
Inductive piece := Text (s : string) | Tok (t : token).

Fixpoint render (ps : list piece) : string :=
  match ps with
  | [] => ""
  | Text s :: rest => s +:+ render rest
  | Tok t :: rest => token_text t +:+ render rest
  end.

(** The first occurrence of the token [t] is replaced by the text [v]. *)
Fixpoint fill_first (t : token) (v : string) (ps : list piece) : list piece :=
  match ps with
  | [] => []
  | Tok t' :: rest =>
      if decide (t' = t) then Text v :: rest else Tok t' :: fill_first t v rest
  | Text s :: rest => Text s :: fill_first t v rest
  end.

Definition fill (d : Date) (t : token) (ps : list piece) : list piece :=
  fill_first t (token_value d t) ps.

(** The eight replacements, in the order of the code. *)
Definition fill_all (d : Date) (ps : list piece) : list piece :=
  fill d A (fill d ss (fill d mm (fill d HH (fill d hh
    (fill d DD (fill d MM (fill d YYYY ps))))))).

(** Every token replaced by its value. *)
Definition values (d : Date) (ps : list piece) : list piece :=
  (λ p, match p with Tok t => Text (token_value d t) | Text s => Text s end) <$> ps.

(** The tokens of [done] replaced by their values, the others kept. *)
Definition fill_tokens (d : Date) (done : list token) (ps : list piece)
  : list piece :=
  (λ p, match p with
        | Tok t => if decide (t ∈ done) then Text (token_value d t) else Tok t
        | Text s => Text s
        end) <$> ps.

Definition tokens_of (ps : list piece) : list token :=
  omap (λ p, match p with Tok t => Some t | Text _ => None end) ps.

(** Literal text: it holds none of the letters Y M D h H m s A. *)
Definition is_literal_char (c : ascii) : bool :=
  negb (existsb (Ascii.eqb c)
          ["Y"; "M"; "D"; "h"; "H"; "m"; "s"; "A"]%char).

Definition literal_piece (p : piece) : Prop :=
  match p with
  | Text s => all_chars is_literal_char s = true
  | Tok _ => True
  end.

(** The letter [c] occurs in none of the texts. *)
Definition free_piece (c : ascii) (p : piece) : Prop :=
  match p with
  | Text s => all_chars (λ x, negb (Ascii.eqb x c)) s = true
  | Tok _ => True
  end.

End Pattern.

(** ** The column definition that hydration produces *)

Module Hydrated.

(** The column is not returned as it is: its [valueFormatter] is a
    non-empty array. *)
Definition has_formatter (obj : gmap string value) : bool :=
  truthy (get obj "valueFormatter")
  && isArray (get obj "valueFormatter")
  && negb (List.length (elems_of (get obj "valueFormatter")) =? 0)%nat.

(** The column object once it has been visited. *)
Definition injected (cellRendererAction : option value)
    (obj : gmap string value) : gmap string value :=
  if injects cellRendererAction obj then with_action cellRendererAction obj
  else obj.

(** The column definition made from a column object: the callback injected
    where the condition holds, and the array of expressions replaced by the
    formatter that captures it. *)
Definition column_def (cellRendererAction : option value)
    (obj : gmap string value) : gmap string value :=
  if has_formatter obj then
    <["valueFormatter" := VFormatter (elems_of (get obj "valueFormatter"))]>
      (injected cellRendererAction obj)
  else injected cellRendererAction obj.

(** The objects of [h0] are in [h], as they were or visited. *)
Definition evolved (cellRendererAction : option value)
    (h0 h : gmap positive (gmap string value)) : Prop :=
  ∀ l o, h0 !! l = Some o →
         h !! l = Some o ∨
         (injects cellRendererAction o = true
          ∧ h !! l = Some (with_action cellRendererAction o)).

End Hydrated.

(** ** The component: the data source it builds, its state and what it renders *)

Module Component.

(** The reason of a rejected promise or of a caught exception, as far as
    the test [err instanceof Error] and [err.message] tell. *)
Inductive reason :=
  | ErrorObject (message : string)
  | NotAnError.

(** A promise that has settled. *)
Inductive settled (T : Type) : Type :=
  | Fulfilled (t : T)
  | Rejected (r : reason).
Arguments Fulfilled {T} t.
Arguments Rejected {T} r.

(** The response of [fetch]: its status, and how [response.json()]
    settles. *)
Record Response (T : Type) := {
  ok : bool;
  statusText : string;
  json : settled T
}.
Arguments ok {T} r.
Arguments statusText {T} r.
Arguments json {T} r.

(** *** [getRows]: the calls made to the grid *)

(** The callbacks that the grid hands over in [params], as far as
    [getRows] is concerned: whether a call returns normally. *)
Record Grid := {
  success_returns : value → value → bool;
  sizeColumnsToFit_returns : bool
}.

Inductive call_made :=
  | CallSuccess (rowData rowCount : value)
  | CallSizeColumnsToFit
  | CallFail.

(** [result.data] and [result.count]: reading a member of [null] or
    [undefined] throws, an object gives its member, and the other values
    have no member of these names. *)
Definition member (result : value) (k : string) : option value :=
  match result with
  | VNull | VUndefined => None
  | VObj o => Some (get o k)
  | _ => Some VUndefined
  end.

(** The calls of [params.success], [params.api.sizeColumnsToFit] and
    [params.fail] made by the chain
    [fetch(...).then(res => res.json()).then(result => {...}).catch(() => {...})]
    once [fetch] has settled with [reply]. *)
Definition getRows_calls (grid : Grid) (reply : settled (Response value))
  : list call_made :=
  match reply with
  | Rejected _ => [CallFail]
  | Fulfilled res =>
      match json res with
      | Rejected _ => [CallFail]
      | Fulfilled result =>
          match member result "data", member result "count" with
          | Some rowData, Some rowCount =>
              if success_returns grid rowData rowCount then
                if sizeColumnsToFit_returns grid
                then [CallSuccess rowData rowCount; CallSizeColumnsToFit]
                else [CallSuccess rowData rowCount; CallSizeColumnsToFit; CallFail]
              else [CallSuccess rowData rowCount; CallFail]
          | _, _ => [CallFail]
          end
      end
  end.

Definition is_success (c : call_made) : bool :=
  match c with CallSuccess _ _ => true | _ => false end.

Definition is_fail (c : call_made) : bool :=
  match c with CallFail => true | _ => false end.

(** How many of the calls satisfy [p]. *)
Definition count (p : call_made → bool) (calls : list call_made) : nat :=
  List.length (List.filter p calls).

(** The body of the response has parsed and its members can be read. *)
Definition rows_of (reply : settled (Response value)) : option (value * value) :=
  match reply with
  | Fulfilled res =>
      match json res with
      | Fulfilled result =>
          match member result "data", member result "count" with
          | Some rowData, Some rowCount => Some (rowData, rowCount)
          | _, _ => None
          end
      | Rejected _ => None
      end
  | Rejected _ => None
  end.

(** *** [fetchTableDefinition] and [render] *)

(** [SerializedTableDefinition]; the column objects are in the heap. *)
Record SerializedTableDefinition := {
  http : TableHttpSpec;
  columnDefs : list positive;
  defaultSort : option SortModelItem
}.

(** [AgTableState]; a data source is told by the [http] member it captures. *)
Record AgTableState := {
  state_columnDefs : list positive;
  state_dataSource : option TableHttpSpec;
  state_defaultSort : option SortModelItem;
  state_loading : bool;
  state_error : option string
}.

(** The state set by the constructor. *)
Definition initial_state : AgTableState :=
  {| state_columnDefs := []; state_dataSource := None;
     state_defaultSort := None; state_loading := true; state_error := None |}.

(** [err instanceof Error ? err.message : 'Unknown error'] *)
Definition error_message (r : reason) : string :=
  match r with
  | ErrorObject message => message
  | NotAnError => "Unknown error"
  end.

(** The [catch] block: [setState({ error: ..., loading: false })]. *)
Definition caught (r : reason) (state : AgTableState) : AgTableState :=
  {| state_columnDefs := state_columnDefs state;
     state_dataSource := state_dataSource state;
     state_defaultSort := state_defaultSort state;
     state_loading := false;
     state_error := Some (error_message r) |}.

(** One run of [fetchTableDefinition], from the state and the heap it
    starts with to those it ends with, given how [fetch] settles.  The body
    of the response, when it parses, is a definition whose column objects
    are in the heap [parsed].  [onOptionClicked] is the callback of the
    props, if any; the function that forwards to it is denoted by the
    callback itself. *)
Definition fetchTableDefinition (onOptionClicked : option value)
    (state : AgTableState) (h : gmap positive (gmap string value))
    (reply : settled (Response (gmap positive (gmap string value)
                                * SerializedTableDefinition)))
  : gmap positive (gmap string value) * AgTableState :=
  let state :=
    {| state_columnDefs := state_columnDefs state;
       state_dataSource := state_dataSource state;
       state_defaultSort := state_defaultSort state;
       state_loading := true;
       state_error := None |} in
  match reply with
  | Rejected r => (h, caught r state)
  | Fulfilled response =>
      if negb (ok response) then
        (h, caught (ErrorObject ("Failed to fetch table definition: "
                                 +:+ statusText response)) state)
      else
        match json response with
        | Rejected r => (h, caught r state)
        | Fulfilled (parsed, serialized) =>
            let cellRendererAction :=
              if from_option truthy false onOptionClicked
              then onOptionClicked else None in
            let '(h', columnDefs) :=
              fromSerializedToColumnDef (columnDefs serialized)
                cellRendererAction parsed in
            (h', {| state_columnDefs := columnDefs;
                    state_dataSource := Some (http serialized);
                    state_defaultSort := defaultSort serialized;
                    state_loading := false;
                    state_error := state_error state |})
        end
  end.

(** What [render] returns, by kind: the loading text, the error text, or
    the grid with the [columnDefs] of the state (as the component passes
    them, before the [gridProps] of the caller are spread over its own). *)
Inductive view :=
  | Loading
  | ErrorView (error : string)
  | GridView (columnDefs : list positive).

Definition render (state : AgTableState) : view :=
  if state_loading state then Loading
  else if from_option (λ e, truthy (VStr e)) false (state_error state)
       then ErrorView (default "" (state_error state))
       else GridView (state_columnDefs state).

(** *** The handlers of the grid events and the saved column state *)

(** What a handler does to the outside: calls of the grid API, of the
    callbacks of the props, and of the console. *)
Inductive effect :=
  | SetDatasource (dataSource : TableHttpSpec)
  | ApplyColumnState (columnState : value)
  | SizeColumnsToFit
  | Warn (message : string)
  | OnGridReady
  | OnRowSelectionChanged (selectedRows : value).

(** [[{ colId: field, sort: sortDir }]] *)
Definition sort_state (field sortDir : string) : value :=
  VArr [VObj {[ "colId" := VStr field; "sort" := VStr sortDir ]}].

(** [sortGrid]; [gridApi] tells whether [this.gridApi] is set. *)
Definition sortGrid (gridApi : bool) (field sortDir : string) : list effect :=
  if gridApi then [ApplyColumnState (sort_state field sortDir)] else [].

(** The part of the two handlers that applies the default sort. *)
Definition apply_defaultSort (gridApi : bool) (state : AgTableState)
  : list effect :=
  match state_defaultSort state with
  | Some s => sortGrid gridApi (colId s) (sort s)
  | None => []
  end.

Section Storage.
(** [JSON.parse] ([None] when it throws) and [JSON.stringify]. *)
Variable JSON_parse : string → option value.
Variable JSON_stringify : value → string.

(** [handleGridReady]: [this.gridApi] is set first, so the default sort is
    applied.  [storage] is [window.localStorage] when there is one, [url]
    and [onGridReady] come from the props. *)
Definition handleGridReady (url : string) (onGridReady : bool)
    (state : AgTableState) (storage : option (gmap string string))
  : list effect :=
  let datasource :=
    match state_dataSource state with
    | Some ds => [SetDatasource ds]
    | None => []
    end in
  let default_sort := apply_defaultSort true state in
  let restored :=
    match storage with
    | Some items =>
        match items !! url with
        | Some savedState =>
            if truthy (VStr savedState) then
              match JSON_parse savedState with
              | Some columnState => [ApplyColumnState columnState]
              | None => [Warn "Could not restore saved table state"]
              end
            else []
        | None => []
        end
    | None => []
    end in
  let ready := if onGridReady then [OnGridReady] else [] in
  datasource ++ default_sort ++ restored ++ ready.

(** [handleFirstDataRendered] *)
Definition handleFirstDataRendered (gridApi : bool) (state : AgTableState)
  : list effect :=
  SizeColumnsToFit :: apply_defaultSort gridApi state.

(** [handleColumnChanged]: what becomes of the storage; [columnState] is
    what [gridApi.getColumnState()] returns. *)
Definition handleColumnChanged (gridApi : bool) (url : string)
    (columnState : value) (storage : option (gmap string string))
  : option (gmap string string) :=
  if gridApi then
    match storage with
    | Some items => Some (<[url := JSON_stringify columnState]> items)
    | None => None
    end
  else storage.
End Storage.

(** [handleSelectionChanged]; [selectedRows] is what
    [gridApi.getSelectedRows()] returns. *)
Definition handleSelectionChanged (gridApi : bool)
    (onRowSelectionChanged : bool) (selectedRows : value) : list effect :=
  if gridApi && onRowSelectionChanged
  then [OnRowSelectionChanged selectedRows] else [].

(** [refreshData] *)
Definition refreshData (gridApi : bool) (state : AgTableState) : list effect :=
  match gridApi, state_dataSource state with
  | true, Some ds => [SetDatasource ds]
  | _, _ => []
  end.

End Component.

(** ** Sample states of the component *)

Module ComponentSamples.

(** A ready table whose definition asks for the newest rows first. *)
Definition newest_first : Component.AgTableState :=
  {| Component.state_columnDefs := [];
     Component.state_dataSource := None;
     Component.state_defaultSort := Some {| colId := "createdAt"; sort := "desc" |};
     Component.state_loading := false;
     Component.state_error := None |}.

(** A storage that holds a column state saved for the table. *)
Definition saved_by_name : option (gmap string string) :=
  Some {[ "/defs/accounts" := "[{colId:name,sort:asc}]" ]}.

(** A grid whose callbacks return normally. *)
Definition quiet_grid : Component.Grid :=
  {| Component.success_returns := λ _ _, true;
     Component.sizeColumnsToFit_returns := true |}.

(** The reply of a server that does not know the table. *)
Definition not_found (T : Type) (body : Component.settled T)
  : Component.settled (Component.Response T) :=
  Component.Fulfilled
    {| Component.ok := false; Component.statusText := "Not Found";
       Component.json := body |}.

End ComponentSamples.

(** * Examples *)

Section Examples.

Example split_dotted : split "account.name" "." = ["account"; "name"].
Proof. reflexivity. Qed.

Example split_two_dots : split "a.b.c" "." = ["a"; "b"; "c"].
Proof. reflexivity. Qed.

Example split_no_dot : split "abc" "." = ["abc"].
Proof. reflexivity. Qed.

Example split_trailing_dot : split "a." "." = ["a"; ""].
Proof. reflexivity. Qed.

Example toString_samples :
  Number_toString 20 = "20" ∧ Number_toString (-3) = "-3" ∧ Number_toString 0 = "0".
Proof. repeat split; reflexivity. Qed.

Example replace_first_only : replace "DD/DD" "DD" "07" = "07/DD".
Proof. reflexivity. Qed.

Example replace_absent : replace "MM/YYYY" "DD" "07" = "MM/YYYY".
Proof. reflexivity. Qed.

Example pad_samples : pad 7 = "07" ∧ pad 12 = "12" ∧ pad 0 = "00".
Proof. repeat split; reflexivity. Qed.

Example formatDate_midnight :
  formatDate {| getFullYear := 1999; getMonth := 11; getDate := 31;
                getHours := 0; getMinutes := 0; getSeconds := 59 |}
             "YYYY-MM-DD HH:mm (hh A)"
  = "1999-12-31 00:00 (12 AM)".
Proof. reflexivity. Qed.

Example date_unparseable :
  date Samples.parse_one (VStr "soon") None = VStr "soon".
Proof. reflexivity. Qed.

Example date_not_a_string :
  date Samples.parse_one VNull None = VStr "" ∧
  date Samples.parse_one (VNum 5) None = VNum 5.
Proof. split; reflexivity. Qed.

Example parseSort_dotted :
  q_orderBy (parseSort (Samples.sort_request "account.name" "asc"))
  = VArr [VArr [VObj {[ "model" := VStr "Account"; "as" := VStr "account" ]};
                VStr "name"; VStr "asc"]].
Proof. reflexivity. Qed.

Example parseSort_filters :
  q_filter (parseSort Samples.filtered_request)
  = {[ "status" := VStr "closed";
       "name" := VObj {[ "$iLike" := VStr "%ann%" ]} ]}.
Proof. by vm_compute. Qed.

Example filter_entry_id :
  filter_entry "id" {| type := "contains"; filter := "ann" |} = ("id", VStr "ann").
Proof. reflexivity. Qed.

Example getRows_numbers :
  getRows_queryParams Samples.show_status Samples.http_fixed_status
    Samples.filtered_request !! "limit" = Some "50" ∧
  getRows_queryParams Samples.show_status Samples.http_fixed_status
    Samples.filtered_request !! "offset" = Some "0".
Proof. split; reflexivity. Qed.

Example hydrate_plain_column :
  hydrate_column Samples.on_option_clicked
    {[ 1%positive := {[ "field" := VStr "name" ]} ]} 1%positive
  = ({[ 1%positive := {[ "field" := VStr "name" ]} ]}, 1%positive).
Proof. reflexivity. Qed.

Example hydrate_allocates :
  (hydrate_column None Samples.one_column_heap 1%positive).2 ≠ 1%positive.
Proof. by vm_compute. Qed.

Example formatter_last_value :
  valueFormatter Samples.engine [VStr "colDef.field"; VStr "value"]
    Samples.cell_params
  = Return (VStr "ann") ∧
  valueFormatter Samples.engine [VStr "value"; VStr "colDef.field"]
    Samples.cell_params
  = Return (VStr "name").
Proof. split; reflexivity. Qed.

Example String_split_overlap :
  JSExtra.String_split "aaa" "aa" = [""; "a"] ∧
  JSExtra.String_split "a, b, c" ", " = ["a"; "b"; "c"] ∧
  JSExtra.String_split "abc" "" = ["a"; "b"; "c"] ∧
  JSExtra.String_split "" "" = [] ∧
  JSExtra.String_split "" "," = [""].
Proof. repeat split; reflexivity. Qed.

Example join_mixed_elements :
  Filters.join (λ _, "function") (VArr [VStr "a"; VNull; VNum 3; VArr [VBool true; VUndefined]]) "-"
  = VStr "a--3-true,".
Proof. reflexivity. Qed.

Example capitalize_samples :
  Filters.capitalize (VStr "ann lee") = VStr "Ann lee" ∧
  Filters.capitalize (VArr [VStr "ann"; VNum 1; VStr ""]) = VArr [VStr "Ann"; VNum 1; VStr ""] ∧
  Filters.capitalize (VNum 5) = VNum 5.
Proof. repeat split; reflexivity. Qed.

Example default_samples :
  Filters.default (VStr "") (VStr "n/a") = VStr "n/a" ∧
  Filters.default (VArr []) (VStr "n/a") = VStr "n/a" ∧
  Filters.default (VNum 0) (VStr "n/a") = VNum 0 ∧
  Filters.default (VBool false) (VStr "n/a") = VBool false.
Proof. repeat split; reflexivity. Qed.

Example length_samples :
  Filters.length (VStr "abc") = VNum 3 ∧
  Filters.length (VArr [VNull; VNull]) = VNum 2 ∧
  Filters.length (VObj ∅) = VNum 0.
Proof. repeat split; reflexivity. Qed.

Example formatDate_repeated_token :
  formatDate {| getFullYear := 2024; getMonth := 0; getDate := 9;
                getHours := 23; getMinutes := 5; getSeconds := 0 |}
             "DD/DD hh A"
  = "09/DD 11 PM".
Proof. reflexivity. Qed.

Example getRows_null_body :
  Component.getRows_calls ComponentSamples.quiet_grid
    (Component.Fulfilled
       {| Component.ok := true; Component.statusText := "OK";
          Component.json := Component.Fulfilled VNull |})
  = [Component.CallFail].
Proof. reflexivity. Qed.

Example getRows_page :
  Component.getRows_calls ComponentSamples.quiet_grid
    (Component.Fulfilled
       {| Component.ok := true; Component.statusText := "OK";
          Component.json :=
            Component.Fulfilled
              (VObj {[ "data" := VArr [VObj ∅]; "count" := VNum 1 ]}) |})
  = [Component.CallSuccess (VArr [VObj ∅]) (VNum 1);
     Component.CallSizeColumnsToFit].
Proof. reflexivity. Qed.

Example render_initial : Component.render Component.initial_state = Component.Loading.
Proof. reflexivity. Qed.

Example fetch_definition :
  Component.render
    (Component.fetchTableDefinition None Component.initial_state ∅
       (Component.Fulfilled
          {| Component.ok := true; Component.statusText := "OK";
             Component.json :=
               Component.Fulfilled
                 ({[ 1%positive := {[ "field" := VStr "name" ]} ]},
                  {| Component.http := Samples.http_fixed_status;
                     Component.columnDefs := [1%positive];
                     Component.defaultSort := None |}) |})).2
  = Component.GridView [1%positive].
Proof. reflexivity. Qed.

Example gridReady_order :
  Component.handleGridReady Samples.read_state "/defs/accounts" true
    ComponentSamples.newest_first ComponentSamples.saved_by_name
  = [Component.ApplyColumnState (Component.sort_state "createdAt" "desc");
     Component.ApplyColumnState
       (VArr [VObj {[ "colId" := VStr "name"; "sort" := VStr "asc" ]}]);
     Component.OnGridReady].
Proof. reflexivity. Qed.

End Examples.

(** * Properties of the row-request translator *)

Section Translator.

(** [Object.fromEntries(Object.entries(m).map(f))] keeps the keys of [m]. *)
Lemma filter_entry_fst (l : list (string * FilterVal)) :
  (uncurry filter_entry <$> l).*1 = l.*1.
Proof. induction l as [|[k v] l IH]; [done|]. csimpl. by f_equal. Qed.

(** [Object.fromEntries(Object.entries(m).map(f))] keeps the keys of [m]. *)
Lemma fromEntries_lookup (m : gmap string FilterVal) (key : string) :
  (list_to_map (uncurry filter_entry <$> map_to_list m) : gmap string value) !! key
  = (λ fv, (filter_entry key fv).2) <$> (m !! key).
Proof.
  destruct (m !! key) as [fv|] eqn:Hm; simpl.
  - apply elem_of_list_to_map_1.
    + rewrite filter_entry_fst. apply NoDup_fst_map_to_list.
    + apply list_elem_of_fmap. exists (key, fv). split; [done|].
      by apply elem_of_map_to_list.
  - apply not_elem_of_list_to_map_1. rewrite filter_entry_fst.
    intros [[k v] [Hk Hin]]%list_elem_of_fmap. simpl in Hk. subst k.
    apply elem_of_map_to_list in Hin. congruence.
Qed.

Lemma filter_entry_rule (key : string) (fv : FilterVal) :
  (filter_entry key fv).2 = Spec.filter_rule key fv.
Proof.
  unfold filter_entry, Spec.filter_rule. simpl.
  destruct (String.eqb_spec key "id") as [->|Hk]; simpl.
  - destruct (String.eqb (type fv) "contains"), (String.eqb (type fv) "notContains");
      reflexivity.
  - rewrite decide_False by done.
    destruct (String.eqb_spec (type fv) "notContains") as [Hn|Hn].
    + rewrite Hn. simpl. reflexivity.
    + destruct (String.eqb_spec (type fv) "contains") as [Hc|Hc].
      * rewrite decide_True by done. reflexivity.
      * rewrite !decide_False by done. reflexivity.
Qed.

(** C5. Every entry of the native filter model is translated under its own
    key: type [contains] gives the operator [$iLike] on the filter text
    between two [%] markers, [notContains] gives [$notILike] likewise, any
    other type gives the literal filter value, and the key [id] always gives
    the literal filter value; no other key appears in the result. *)
Theorem C5_filter_translation (request : Request) (key : string) :
  q_filter (parseSort request) !! key
  = Spec.filter_rule key <$> (default ∅ (filterModel request) !! key).
Proof.
  unfold parseSort. cbn [q_filter]. rewrite fromEntries_lookup.
  destruct (default ∅ (filterModel request) !! key) as [fv|]; simpl; [|done].
  f_equal. apply filter_entry_rule.
Qed.

(** C7. The offset is [startRow] and the limit is [endRow - startRow], both
    read as 0 when absent; a request without sort entries (absent or empty
    sort model) is ordered by ([createdAt], [desc]); and the request
    [{ startRow: 10, endRow: 30, sortModel: [], filterModel: {} }] gives
    [{ offset: 10, limit: 20, orderBy: [["createdAt","desc"]], filter: {} }]. *)
Theorem C7_paging_and_default_sort :
  (∀ request,
     q_offset (parseSort request) = default 0 (startRow request) ∧
     q_limit (parseSort request)
     = default 0 (endRow request) - default 0 (startRow request)) ∧
  (∀ s e fm,
     q_orderBy (parseSort {| startRow := s; endRow := e;
                             sortModel := None; filterModel := fm |})
     = VArr [VArr [VStr "createdAt"; VStr "desc"]] ∧
     q_orderBy (parseSort {| startRow := s; endRow := e;
                             sortModel := Some []; filterModel := fm |})
     = VArr [VArr [VStr "createdAt"; VStr "desc"]]) ∧
  parseSort {| startRow := Some 10; endRow := Some 30;
               sortModel := Some []; filterModel := Some ∅ |}
  = {| q_filter := ∅; q_limit := 20; q_offset := 10;
       q_orderBy := VArr [VArr [VStr "createdAt"; VStr "desc"]] |}.
Proof.
  split; [|split].
  - intros request. split; reflexivity.
  - intros s e fm. split; reflexivity.
  - unfold parseSort. simpl. rewrite map_to_list_empty. reflexivity.
Qed.

(** *** Dotted column ids *)

Lemma includes_dot_nil : includes "" "." = false.
Proof. reflexivity. Qed.

Lemma includes_dot_cons (c : ascii) (s : string) :
  includes (String c s) "." = Ascii.eqb c "." || includes s ".".
Proof.
  cbn [includes String.prefix].
  destruct (ascii_dec "." c) as [<-|Hc].
  - by destruct s.
  - destruct (Ascii.eqb_spec c ".") as [->|_]; [done|reflexivity].
Qed.

Lemma split_cons_dot (s : string) : split (String "." s) "." = "" :: split s ".".
Proof. reflexivity. Qed.

Lemma split_cons_other (c : ascii) (s : string) :
  Ascii.eqb c "." = false →
  split (String c s) "." =
  match split s "." with
  | seg :: segs => String c seg :: segs
  | [] => [String c ""]
  end.
Proof. intros Hc. cbn [split]. by rewrite Hc. Qed.

(** [split] cuts at every dot: its first segment is what precedes the
    first dot, and the segments after it are those of the remainder. *)
Lemma split_first_segment (s : string) :
  split s "." =
  (Spec.split_first_dot s).1 ::
  (if includes s "." then split (Spec.split_first_dot s).2 "." else []).
Proof.
  induction s as [|c s IH]; [reflexivity|].
  rewrite includes_dot_cons. cbn [Spec.split_first_dot].
  destruct (Ascii.eqb_spec c ".") as [->|Hc].
  - reflexivity.
  - rewrite split_cons_other by (by apply Ascii.eqb_neq).
    rewrite IH. destruct (Spec.split_first_dot s) as [rel field]. reflexivity.
Qed.

Lemma capitalize_charAt_slice (modelName : string) :
  toUpperCase (charAt modelName 0) +:+ slice modelName 1 = Spec.capitalize modelName.
Proof. destruct modelName; reflexivity. Qed.

Lemma split_first_dot_no_dot (s : string) :
  includes s "." = false → Spec.split_first_dot s = (s, "").
Proof.
  induction s as [|c s IH]; [done|].
  rewrite includes_dot_cons. cbn [Spec.split_first_dot].
  destruct (Ascii.eqb c "."); [done|]. simpl. intros Hs. by rewrite IH.
Qed.

(** C6 (as the code has it). For a first sort entry whose column id contains
    a dot, the id is cut at every dot; the first segment is the relation
    name, the second segment (what lies between the first dot and the next
    one, if any) is the field name, and the result is the single entry
    ([{model: Relation, as: relation}], field, direction), the model being
    the relation name with its first letter in upper case.  A column id
    without a dot gives the flat entry (id, direction).  When the id has
    exactly one dot this is the split on the first dot. *)
Theorem C6_dotted_sort (s e : option Z) (fm : option (gmap string FilterVal))
    (item : SortModelItem) (others : list SortModelItem) :
  let request := {| startRow := s; endRow := e;
                    sortModel := Some (item :: others); filterModel := fm |} in
  q_orderBy (parseSort request)
  = (if includes (colId item) "." then
       let '(rel, rest) := Spec.split_first_dot (colId item) in
       Spec.structured_entry rel (Spec.split_first_dot rest).1 (sort item)
     else VArr [VArr [VStr (colId item); VStr (sort item)]]) ∧
  (includes (Spec.split_first_dot (colId item)).2 "." = false →
   q_orderBy (parseSort request) = Spec.order_rule item).
Proof.
  intros request.
  assert (Hmain : q_orderBy (parseSort request)
    = (if includes (colId item) "." then
         let '(rel, rest) := Spec.split_first_dot (colId item) in
         Spec.structured_entry rel (Spec.split_first_dot rest).1 (sort item)
       else VArr [VArr [VStr (colId item); VStr (sort item)]])).
  { unfold parseSort, request.
    cbn [q_orderBy sortModel mbind option_bind head default id].
    destruct (includes (colId item) ".") eqn:Hdot; [|reflexivity].
    rewrite (split_first_segment (colId item)), Hdot.
    destruct (Spec.split_first_dot (colId item)) as [rel rest]. cbn [fst snd].
    rewrite (split_first_segment rest).
    cbn [lookup list_lookup default]. rewrite capitalize_charAt_slice.
    reflexivity. }
  split; [exact Hmain|].
  intros Hone. rewrite Hmain. unfold Spec.order_rule.
  destruct (includes (colId item) "."); [|reflexivity].
  destruct (Spec.split_first_dot (colId item)) as [rel rest]. cbn [snd] in Hone.
  by rewrite (split_first_dot_no_dot rest Hone).
Qed.

Lemma C6_dotted_sort_witness :
  includes (Spec.split_first_dot "account.name").2 "." = false ∧
  q_orderBy (parseSort (Samples.sort_request "account.name" "asc"))
  = Spec.order_rule {| colId := "account.name"; sort := "asc" |}.
Proof.
  split; [reflexivity|].
  apply (proj2 (C6_dotted_sort None None None
                  {| colId := "account.name"; sort := "asc" |} [])).
  reflexivity.
Defined.

(** C6 as stated fails on an id with two dots: the code cuts
    ["account.owner.name"] into three segments and keeps ["owner"] as the
    field name, where the split on the first dot gives ["owner.name"]. *)
Lemma C6_counterexample :
  q_orderBy (parseSort (Samples.sort_request "account.owner.name" "asc"))
  = Spec.structured_entry "account" "owner" "asc" ∧
  Spec.order_rule {| colId := "account.owner.name"; sort := "asc" |}
  = Spec.structured_entry "account" "owner.name" "asc" ∧
  q_orderBy (parseSort (Samples.sort_request "account.owner.name" "asc"))
  ≠ Spec.order_rule {| colId := "account.owner.name"; sort := "asc" |}.
Proof.
  split; [reflexivity|]. split; [reflexivity|].
  intros H.
  apply (f_equal (λ v, elems_of <$> (elems_of v !! 0%nat))) in H.
  apply (f_equal (λ o, o ≫= (.!! 1%nat))) in H.
  vm_compute in H. discriminate H.
Qed.

(** The order-by of a request is built from the first entry of its sort
    model. *)
Lemma orderBy_first_entry (s e : option Z) (fm : option (gmap string FilterVal))
    (item : SortModelItem) (others : list SortModelItem) :
  q_orderBy (parseSort {| startRow := s; endRow := e;
                          sortModel := Some (item :: others);
                          filterModel := fm |})
  = (if includes (colId item) "." then
       let '(rel, rest) := Spec.split_first_dot (colId item) in
       Spec.structured_entry rel (Spec.split_first_dot rest).1 (sort item)
     else VArr [VArr [VStr (colId item); VStr (sort item)]]).
Proof.
  unfold parseSort.
  cbn [q_orderBy sortModel mbind option_bind head default id].
  destruct (includes (colId item) ".") eqn:Hdot; [|reflexivity].
  rewrite (split_first_segment (colId item)), Hdot.
  destruct (Spec.split_first_dot (colId item)) as [rel rest]. cbn [fst snd].
  rewrite (split_first_segment rest).
  cbn [lookup list_lookup default]. by rewrite capitalize_charAt_slice.
Qed.

(** C10. The order-by is built from the first entry of the sort model, from
    its column id and its direction: it is the single entry made from that
    column id (flat, or structured when the id has a dot) with that
    direction.  The entries that follow the first are not used: the whole
    result is the same whatever they are. *)
Theorem C10_only_first_sort_entry (s e : option Z)
    (fm : option (gmap string FilterVal)) (item : SortModelItem)
    (others : list SortModelItem) :
  let request := {| startRow := s; endRow := e;
                    sortModel := Some (item :: others); filterModel := fm |} in
  q_orderBy (parseSort request)
  = (if includes (colId item) "." then
       let '(rel, rest) := Spec.split_first_dot (colId item) in
       Spec.structured_entry rel (Spec.split_first_dot rest).1 (sort item)
     else VArr [VArr [VStr (colId item); VStr (sort item)]]) ∧
  (∃ entry, q_orderBy (parseSort request) = VArr [VArr entry] ∧
            last entry = Some (VStr (sort item))) ∧
  parseSort request
  = parseSort {| startRow := s; endRow := e;
                 sortModel := Some [item]; filterModel := fm |}.
Proof.
  intros request. split_and!.
  - apply orderBy_first_entry.
  - unfold request. rewrite orderBy_first_entry.
    destruct (includes (colId item) ".").
    + destruct (Spec.split_first_dot (colId item)) as [rel rest].
      by eexists.
    + by eexists.
  - reflexivity.
Qed.

End Translator.

(** * Properties of the data source *)

Section DataSource.

Variable JSON_stringify : value → string.

Lemma getRows_filter_param (http : TableHttpSpec) (request : Request) :
  getRows_queryParams JSON_stringify http request !! "filter"
  = Some (JSON_stringify
            (VObj (getRows_filter http (q_filter (parseSort request))))).
Proof. unfold getRows_queryParams. by simplify_map_eq. Qed.

(** C9. The [filter] query parameter is the JSON text of the translated
    grid filters extended with the static parameters of the definition,
    and for a key present in both the static parameter's value is the one
    it holds; keys without a static parameter keep their translated
    filter. *)
Theorem C9_static_params_override (http : TableHttpSpec) (request : Request)
    (ps : gmap string value) (key : string) (v fv : value) :
  params http = Some ps →
  ps !! key = Some v →
  q_filter (parseSort request) !! key = Some fv →
  let merged := getRows_filter http (q_filter (parseSort request)) in
  getRows_queryParams JSON_stringify http request !! "filter"
  = Some (JSON_stringify (VObj merged)) ∧
  merged !! key = Some v ∧
  (∀ k, ps !! k = None → merged !! k = q_filter (parseSort request) !! k).
Proof.
  intros Hps Hkey _ merged. split; [apply getRows_filter_param|].
  unfold merged, getRows_filter. rewrite Hps. simpl. split.
  - by apply lookup_union_Some_l.
  - intros k Hk. by apply lookup_union_r.
Qed.

End DataSource.

Lemma C9_static_params_override_witness :
  getRows_queryParams Samples.show_status Samples.http_fixed_status
    Samples.filtered_request !! "filter" = Some "active" ∧
  getRows_filter Samples.http_fixed_status
    (q_filter (parseSort Samples.filtered_request)) !! "status"
  = Some (VStr "active").
Proof.
  assert (Hf : q_filter (parseSort Samples.filtered_request) !! "status"
               = Some (VStr "closed")) by (vm_compute; reflexivity).
  assert (Hp : ({[ "status" := VStr "active" ]} : gmap string value) !! "status"
               = Some (VStr "active")) by reflexivity.
  pose proof (C9_static_params_override Samples.show_status
                Samples.http_fixed_status Samples.filtered_request
                {[ "status" := VStr "active" ]} "status"
                (VStr "active") (VStr "closed") eq_refl Hp Hf) as (Hq & Hm & _).
  split; [|exact Hm]. rewrite Hq. reflexivity.
Defined.

(** * Properties of the hydrated formatter *)

Section FormatterProps.

Variable compile :
  value → outcome (gmap string value → gmap string value * outcome value).

Lemma for_of_cons (exp : value) (rest : list value)
    (scope : gmap string value) (result : value) :
  for_of compile (exp :: rest) scope result
  = (r ← (evaluate compile exp scope).2;
     for_of compile rest (evaluate compile exp scope).1 r).
Proof.
  unfold evaluate. cbn [for_of].
  destruct (compile exp) as [exec|e]; [|reflexivity].
  cbn. by destruct (exec scope) as [scope' [r|e]].
Qed.

(** The value kept from the iterations before does not matter once an
    expression is left to run. *)
Lemma for_of_result (vf : list value) (scope : gmap string value)
    (result result' : value) :
  vf ≠ [] → for_of compile vf scope result = for_of compile vf scope result'.
Proof. destruct vf as [|exp rest]; [done|]. intros _. by rewrite !for_of_cons. Qed.

(** The expressions that return normally hand over the scope they leave:
    the loop goes on from it with the rest of the array. *)
Lemma for_of_after (earlier later : list value)
    (scope scope' : gmap string value) (result : value) :
  scope_after compile earlier scope = Some scope' →
  later ≠ [] →
  for_of compile (earlier ++ later) scope result
  = for_of compile later scope' VUndefined.
Proof.
  intros Hafter Hlater. revert scope result Hafter.
  induction earlier as [|exp earlier IH]; intros scope result Hafter.
  - injection Hafter as <-. rewrite app_nil_l. by apply for_of_result.
  - rewrite <- app_comm_cons, for_of_cons. cbn [scope_after] in Hafter.
    destruct (evaluate compile exp scope) as [s1 [v|e]]; [|done].
    cbn. by apply IH.
Qed.


Lemma valueFormatter_throws (earlier later : list value) (exp e : value)
    (params scope' : gmap string value) :
  scope_after compile earlier (make_scope params) = Some scope' →
  (evaluate compile exp scope').2 = Throw e →
  valueFormatter compile (earlier ++ exp :: later) params = Throw e.
Proof.
  intros Hafter He. unfold valueFormatter.
  rewrite (for_of_after _ _ _ scope') by done. by rewrite for_of_cons, He.
Qed.

End FormatterProps.

(** * Properties of the hydration *)

Section Hydration.

Implicit Types (h : gmap positive (gmap string value)) (c l : positive).
Implicit Types (obj o : gmap string value) (act : option value).

Lemma hydrate_column_unfold act h c :
  let obj := default ∅ (h !! c) in
  let h1 := if injects act obj then <[c := with_action act obj]> h else h in
  let obj1 := default ∅ (h1 !! c) in
  hydrate_column act h c =
  if negb (truthy (get obj1 "valueFormatter"))
     || negb (isArray (get obj1 "valueFormatter"))
     || (length (elems_of (get obj1 "valueFormatter")) =? 0)%nat
  then (h1, c)
  else (<[fresh (dom h1) := <["valueFormatter" :=
           VFormatter (elems_of (get obj1 "valueFormatter"))]> obj1]> h1,
        fresh (dom h1)).
Proof. reflexivity. Qed.

Lemma get_with_action act obj k :
  k ≠ "cellRendererParams" → with_action act obj !! k = obj !! k.
Proof. intros Hk. unfold with_action. by rewrite lookup_insert_ne. Qed.

Lemma injects_with_action act obj :
  injects act obj = true → injects act (with_action act obj) = true.
Proof.
  unfold injects, has. intros [[H1 H2]%andb_prop H3]%andb_prop.
  rewrite H2. rewrite (bool_decide_ext _ (is_Some (obj !! "cellRenderer"))).
  - rewrite H1. unfold get, with_action. by rewrite lookup_insert_eq.
  - by rewrite get_with_action.
Qed.

Lemma with_action_idemp act obj :
  with_action act (with_action act obj) = with_action act obj.
Proof.
  unfold with_action at 1. unfold get.
  replace (with_action act obj !! "cellRendererParams")
    with (Some (VObj (<["onAction" := default VUndefined act]>
                        (spread (get obj "cellRendererParams")))))
    by (unfold with_action; by rewrite lookup_insert_eq).
  cbn [default spread id]. rewrite insert_insert_eq.
  unfold with_action. by rewrite insert_insert_eq.
Qed.

(** One step of the map: the visited column may be reassigned, every other
    object that was in the heap is left as it was (a new object, when one
    is allocated, is placed at an unused location). *)
Lemma hydrate_column_lookup act h c l o :
  h !! l = Some o →
  (hydrate_column act h c).1 !! l
  = Some (if decide (l = c)
          then (if injects act o then with_action act o else o)
          else o).
Proof.
  intros Hl. rewrite hydrate_column_unfold. cbv zeta.
  set (h1 := if injects act (default ∅ (h !! c)) then _ else h).
  assert (H1 : h1 !! l = Some (if decide (l = c)
                               then (if injects act o then with_action act o else o)
                               else o)).
  { unfold h1. destruct (decide (l = c)) as [->|Hne].
    - rewrite Hl. cbn [default id].
      destruct (injects act o); [apply lookup_insert_eq|done].
    - destruct (injects act _); [by rewrite lookup_insert_ne|done]. }
  destruct (_ || _); cbn [fst]; [exact H1|].
  rewrite lookup_insert_ne; [exact H1|].
  intros Heq. apply (is_fresh (dom h1)). rewrite Heq.
  apply elem_of_dom. by rewrite H1.
Qed.

Lemma fromSerialized_cons_heap act h c rest :
  (fromSerializedToColumnDef (c :: rest) act h).1
  = (fromSerializedToColumnDef rest act (hydrate_column act h c).1).1.
Proof.
  cbn [fromSerializedToColumnDef].
  destruct (hydrate_column act h c) as [h1 d]. cbn [fst].
  by destruct (fromSerializedToColumnDef rest act h1).
Qed.

Lemma fromSerialized_invariant act (S : list positive) h0 (rest : list positive) :
  ∀ h,
    (∀ c, c ∈ rest → c ∈ S) →
    (∀ l o, h0 !! l = Some o →
            ∃ o', h !! l = Some o' ∧ hydrated_as act S l o o') →
    ∀ l o, h0 !! l = Some o →
           ∃ o', (fromSerializedToColumnDef rest act h).1 !! l = Some o'
                 ∧ hydrated_as act S l o o'.
Proof.
  induction rest as [|c rest IH]; intros h Hsub Hinv l o Hl.
  - by apply Hinv.
  - rewrite fromSerialized_cons_heap.
    apply IH; [intros c' Hc'; apply Hsub; by right| |done].
    clear l o Hl. intros l o Hl.
    destruct (Hinv l o Hl) as (o' & Ho' & Hok).
    rewrite (hydrate_column_lookup act h c l o' Ho').
    eexists. split; [reflexivity|].
    destruct (decide (l = c)) as [->|_]; [|exact Hok].
    destruct Hok as [->|(Hin & Hinj & ->)].
    + destruct (injects act o) eqn:Hinj; [|by left].
      right. split; [apply Hsub; by left|done].
    + rewrite injects_with_action by done. rewrite with_action_idemp.
      right. by split.
Qed.

Lemma fromSerialized_hydrated_as act (serialized : list positive) h l o :
  h !! l = Some o →
  ∃ o', (fromSerializedToColumnDef serialized act h).1 !! l = Some o'
        ∧ hydrated_as act serialized l o o'.
Proof.
  intros Hl.
  apply (fromSerialized_invariant act serialized h serialized h); [done| |done].
  intros l' o'' Hl'. exists o''. split; [done|by left].
Qed.


End Hydration.

(** * The formatter of a hydrated column *)

Section HydratedFormatter.

Variable compile :
  value → outcome (gmap string value → gmap string value * outcome value).


(** C2 (as the code has it). The formatter has no handler: when an
    expression fails, at compilation or when it is run, after the
    expressions before it returned normally, the call of the formatter
    throws that same error; no later expression is run and no raw value
    is returned in its place. *)
Theorem C2_error_propagates (earlier later : list value) (exp e : value)
    (params scope' : gmap string value) :
  scope_after compile earlier (make_scope params) = Some scope' →
  (evaluate compile exp scope').2 = Throw e →
  call compile (VFormatter (earlier ++ exp :: later)) params = Throw e ∧
  call compile (VFormatter (earlier ++ exp :: later)) params
  ≠ Return (get params "value").
Proof.
  intros Hafter He. cbn [call].
  rewrite (valueFormatter_throws compile earlier later exp e params scope'
             Hafter He).
  split; [reflexivity|discriminate].
Qed.

(** C4 (what the code does). The scope object that a formatter builds from
    [params], and on which its first expression is run, has exactly the
    four slots [api], [colDef], [node] and [value], each read from
    [params]: it has no slot for date/time utilities. *)
Theorem C4_scope_slots (vf : list value) (params : gmap string value) :
  valueFormatter compile vf params
  = for_of compile vf (make_scope params) VUndefined ∧
  dom (make_scope params) = Spec.four_slots ∧
  size (dom (make_scope params)) = 4%nat ∧
  (∀ k, k ∈ Spec.four_slots → make_scope params !! k = Some (get params k)) ∧
  (∀ k, k ∉ Spec.four_slots → make_scope params !! k = None).
Proof.
  assert (Hdom : dom (make_scope params) = Spec.four_slots).
  { unfold make_scope, Spec.four_slots.
    by rewrite !dom_insert_L, dom_singleton_L. }
  split; [reflexivity|]. split; [exact Hdom|]. split; [|split].
  - rewrite Hdom. reflexivity.
  - intros k Hk. unfold Spec.four_slots in Hk. unfold make_scope.
    repeat (apply elem_of_union in Hk as [Hk|Hk]);
      apply elem_of_singleton in Hk; subst k; by simplify_map_eq.
  - intros k Hk. apply not_elem_of_dom. by rewrite Hdom.
Qed.

End HydratedFormatter.



Lemma C2_error_propagates_witness :
  call Samples.engine (VFormatter [VStr "value"; VStr "api.fail()"; VStr "value"])
       Samples.cell_params
  = Throw (VStr "Error: fail").
Proof.
  apply (C2_error_propagates Samples.engine [VStr "value"] [VStr "value"]
           (VStr "api.fail()") (VStr "Error: fail") Samples.cell_params
           (make_scope Samples.cell_params)).
  - reflexivity.
  - reflexivity.
Defined.

(** C2 as stated fails: an expression that throws when it is run makes the
    formatter throw, where the claim has it return the raw cell value. *)
Lemma C2_counterexample :
  (evaluate Samples.engine (VStr "api.fail()") (make_scope Samples.cell_params)).2
  = Throw (VStr "Error: fail") ∧
  get Samples.cell_params "value" = VStr "ann" ∧
  call Samples.engine (VFormatter [VStr "api.fail()"]) Samples.cell_params
  = Throw (VStr "Error: fail") ∧
  call Samples.engine (VFormatter [VStr "api.fail()"]) Samples.cell_params
  ≠ Return (get Samples.cell_params "value").
Proof. repeat split; try reflexivity. discriminate. Qed.

(** C4 at a sample cell: the scope has four slots, so it is not the
    five-slot record of the claim, whatever the name of the date/time slot;
    in particular it has no [moment]. *)
Lemma C4_counterexample :
  (∀ dt : string, dt ∉ Spec.four_slots →
     dom (make_scope Samples.cell_params) ≠ Spec.five_slots dt) ∧
  make_scope Samples.cell_params !! "moment" = None.
Proof.
  split; [|reflexivity].
  intros dt Hdt Heq.
  assert (Hin : dt ∈ dom (make_scope Samples.cell_params)).
  { rewrite Heq. unfold Spec.five_slots. apply elem_of_union_r.
    by apply elem_of_singleton. }
  apply Hdt. revert Hin. unfold make_scope, Spec.four_slots.
  by rewrite !dom_insert_L, dom_singleton_L.
Qed.

(** * Properties of the [date] filter *)

Section ReplaceFacts.

Lemma prefix_nil (s : string) : String.prefix "" s = true.
Proof. by destruct s. Qed.

Lemma replace_nil (c : ascii) (p rep : string) :
  replace "" (String c p) rep = "".
Proof. reflexivity. Qed.

Lemma replace_cons_ne (c0 c : ascii) (s p rep : string) :
  c0 ≠ c →
  replace (String c0 s) (String c p) rep
  = String c0 (replace s (String c p) rep).
Proof.
  intros Hne. cbn [replace String.prefix].
  destruct (ascii_dec c c0) as [->|_]; [done|reflexivity].
Qed.

Lemma replace_here (s pat rep : string) :
  String.prefix pat s = true →
  replace s pat rep = rep +:+ slice s (String.length pat).
Proof. intros Hp. destruct s; cbn [replace]; by rewrite Hp. Qed.

(** A stretch of text in which the first character of the pattern does not
    occur is passed over. *)
Lemma replace_skip (s t : string) (c : ascii) (p rep : string) :
  all_chars (λ x, negb (Ascii.eqb x c)) s = true →
  replace (s +:+ t) (String c p) rep = s +:+ replace t (String c p) rep.
Proof.
  induction s as [|c0 s IH]; [done|].
  cbn [all_chars]. intros [Hc Hs]%andb_prop.
  change (String c0 s +:+ t) with (String c0 (s +:+ t)).
  rewrite replace_cons_ne.
  - by rewrite IH.
  - intros ->. by rewrite Ascii.eqb_refl in Hc.
Qed.

Lemma all_chars_impl (P Q : ascii → bool) (s : string) :
  (∀ c, P c = true → Q c = true) →
  all_chars P s = true → all_chars Q s = true.
Proof.
  intros HPQ. induction s as [|c s IH]; [done|].
  cbn [all_chars]. intros [Hc Hs]%andb_prop.
  by rewrite (HPQ c Hc), IH.
Qed.

Lemma all_chars_uint (d : Decimal.uint) :
  all_chars is_num_char (NilEmpty.string_of_uint d) = true.
Proof. induction d; cbn [NilEmpty.string_of_uint all_chars]; by try rewrite IHd. Qed.

Lemma Number_toString_numeric (n : Z) :
  all_chars is_num_char (Number_toString n) = true.
Proof.
  unfold Number_toString, NilZero.string_of_int, NilZero.string_of_uint.
  destruct (Z.to_int n) as [d|d]; destruct d; try reflexivity;
    cbn [all_chars]; rewrite ?andb_true_l;
    try (apply (all_chars_uint (Decimal.D0 _)) || apply all_chars_uint).
Qed.

Lemma pad_numeric (n : Z) : all_chars is_num_char (pad n) = true.
Proof.
  unfold pad, padStart2. pose proof (Number_toString_numeric n) as Hn.
  destruct (String.length (Number_toString n)) as [|[|k]]; [reflexivity| |done].
  change (all_chars is_num_char (String "0" (Number_toString n)) = true).
  cbn [all_chars]. by rewrite Hn.
Qed.

(** No letter of a pattern token occurs in a number. *)
Lemma numeric_skips (s : string) (c : ascii) :
  is_num_char c = false →
  all_chars is_num_char s = true →
  all_chars (λ x, negb (Ascii.eqb x c)) s = true.
Proof.
  intros Hc. apply all_chars_impl. intros x Hx.
  destruct (Ascii.eqb_spec x c) as [->|_]; [congruence|reflexivity].
Qed.

Lemma pad_two_digits (n : Z) : 0 ≤ n ≤ 99 → String.length (pad n) = 2%nat.
Proof.
  intros Hn.
  assert (Hall : forallb (λ k, (String.length (pad (Z.of_nat k)) =? 2)%nat)
                         (seq 0 100) = true) by (vm_compute; reflexivity).
  rewrite forallb_forall in Hall.
  specialize (Hall (Z.to_nat n)). rewrite Z2Nat.id in Hall by lia.
  apply Nat.eqb_eq, Hall, in_seq. lia.
Qed.

End ReplaceFacts.

Ltac pass_over :=
  repeat first
    [ rewrite replace_cons_ne by discriminate
    | rewrite replace_skip
        by (apply numeric_skips;
            [reflexivity | first [apply pad_numeric | apply Number_toString_numeric]]) ].

Ltac replace_token :=
  pass_over;
  first [ rewrite replace_here by reflexivity; cbn [slice String.length]
        | rewrite replace_nil ].

Ltac innermost_token :=
  match goal with
  | |- context [replace ?s ?p ?r] =>
      lazymatch s with
      | context [replace] => fail
      | _ =>
          let E := fresh "E" in
          eassert (E : replace s p r = _) by (replace_token; reflexivity);
          rewrite E; clear E
      end
  end.

Section DateFilterProps.

(** The default pattern, token by token, as [formatDate] fills it in. *)
Lemma formatDate_default (d : Date) :
  formatDate d "MM/DD/YYYY hh:mm:ss A"
  = pad (getMonth d + 1) +:+ "/" +:+ pad (getDate d) +:+ "/" +:+
    Number_toString (getFullYear d) +:+ " " +:+
    pad (if Z.rem (getHours d) 12 =? 0 then 12 else Z.rem (getHours d) 12)
    +:+ ":" +:+ pad (getMinutes d) +:+ ":" +:+ pad (getSeconds d) +:+ " " +:+
    (if 12 <=? getHours d then "PM" else "AM").
Proof.
  unfold formatDate. cbv zeta.
  set (Y := Number_toString (getFullYear d)).
  set (h12 := if Z.rem (getHours d) 12 =? 0 then 12 else Z.rem (getHours d) 12).
  set (ap := if 12 <=? getHours d then "PM" else "AM").
  assert (HY : all_chars is_num_char Y = true) by apply Number_toString_numeric.
  do 8 innermost_token.
  replace (ap +:+ "") with ap by (unfold ap; by destruct (12 <=? getHours d)).
  reflexivity.
Qed.

Lemma hour12_clock (h : Z) :
  0 ≤ h ≤ 23 →
  (if Z.rem h 12 =? 0 then 12 else Z.rem h 12) = (h + 11) mod 12 + 1.
Proof.
  intros Hh. rewrite Z.rem_mod_nonneg by lia.
  destruct (Z.eqb_spec (h mod 12) 0) as [H0|H0].
  - assert (h = 0 ∨ h = 12) as [-> | ->]; [|reflexivity..].
    pose proof (Z.div_mod h 12). assert (h / 12 = 0 ∨ h / 12 = 1) as [?|?]; lia.
  - pose proof (Z.div_mod h 12). pose proof (Z.mod_pos_bound h 12).
    assert (h / 12 = 0 ∨ h / 12 = 1) as [Hq|Hq] by lia.
    + rewrite (Z.mod_small h) in * by lia.
      replace (h + 11) with ((h - 1) + 1 * 12) by lia.
      rewrite Z.mod_add by lia. rewrite Z.mod_small; lia.
    + assert (h mod 12 = h - 12) as -> by lia.
      replace (h + 11) with ((h - 13) + 2 * 12) by lia.
      rewrite Z.mod_add by lia. rewrite Z.mod_small; lia.
Qed.

Lemma formatDate_default_rendering (d : Date) :
  Spec.wf_date d →
  formatDate d "MM/DD/YYYY hh:mm:ss A" = Spec.default_rendering d.
Proof.
  intros (_ & _ & Hh & _). rewrite formatDate_default.
  unfold Spec.default_rendering, Spec.hour12, Spec.marker.
  rewrite (hour12_clock _ Hh).
  destruct (Z.leb_spec 12 (getHours d)).
  - by rewrite decide_False by lia.
  - by rewrite decide_True by lia.
Qed.

Variable Date_parse : string → option Date.

(** [new Date('')] is an invalid date, and a valid date has its fields
    within the calendar ranges. *)
Hypothesis Date_parse_empty : Date_parse "" = None.
Hypothesis Date_parse_wf : ∀ s d, Date_parse s = Some d → Spec.wf_date d.

(** C8. Called without a pattern on a string: a string that parses as a
    date is rendered as month/day/year hour:minutes:seconds marker, with
    month, day, hour on the 12-hour clock, minutes and seconds on two
    digits and the marker AM or PM; a string that does not parse is
    returned as it is; the empty string gives the empty string. *)
Theorem C8_date_filter (s : string) :
  date Date_parse (VStr s) None
  = VStr (match Date_parse s with
          | Some d => Spec.default_rendering d
          | None => s
          end) ∧
  date Date_parse (VStr "") None = VStr "" ∧
  (∀ d, Date_parse s = Some d →
        String.length (pad (getMonth d + 1)) = 2%nat ∧
        String.length (pad (getDate d)) = 2%nat ∧
        String.length (pad (Spec.hour12 d)) = 2%nat ∧
        String.length (pad (getMinutes d)) = 2%nat ∧
        String.length (pad (getSeconds d)) = 2%nat ∧
        1 ≤ Spec.hour12 d ≤ 12 ∧
        (Spec.marker d = "AM" ∨ Spec.marker d = "PM")).
Proof.
  split; [|split].
  - unfold date. destruct (String.eqb_spec s "") as [->|Hs].
    + by rewrite Date_parse_empty.
    + cbn [truthy]. destruct (String.eqb_spec s "") as [|_]; [done|].
      cbn [negb andb]. destruct (Date_parse s) as [d|] eqn:Hd; [|done].
      by rewrite formatDate_default_rendering by eauto.
  - reflexivity.
  - intros d Hd. destruct (Date_parse_wf s d Hd) as (Hm & Hday & Hh & Hmi & Hse).
    assert (1 ≤ Spec.hour12 d ≤ 12).
    { unfold Spec.hour12. pose proof (Z.mod_pos_bound (getHours d + 11) 12). lia. }
    repeat split; try (apply pad_two_digits; lia); try lia.
    unfold Spec.marker. destruct (decide (getHours d < 12)); auto.
Qed.

End DateFilterProps.

Lemma C8_date_filter_witness :
  date Samples.parse_one (VStr "2024-03-05T14:07:09") None
  = VStr "03/05/2024 02:07:09 PM".
Proof.
  refine (proj1 (C8_date_filter Samples.parse_one _ _ "2024-03-05T14:07:09")).
  - reflexivity.
  - intros s d. unfold Samples.parse_one.
    destruct (String.eqb s "2024-03-05T14:07:09"); [|discriminate].
    intros [= <-]. unfold Spec.wf_date. cbn. lia.
Defined.

(** * Properties of the other filters *)

Section FilterProps.

Lemma upper_ascii_idemp (c : ascii) : upper_ascii (upper_ascii c) = upper_ascii c.
Proof. destruct c as [[] [] [] [] [] [] [] []]; reflexivity. Qed.

Lemma toUpperCase_idemp (s : string) : toUpperCase (toUpperCase s) = toUpperCase s.
Proof.
  induction s as [|c s IH]; [done|].
  cbn [toUpperCase]. by rewrite upper_ascii_idemp, IH.
Qed.

Lemma toUpperCase_length (s : string) :
  String.length (toUpperCase s) = String.length s.
Proof. induction s as [|c s IH]; [done|]. cbn. by rewrite IH. Qed.

Lemma capitalize_string_cons (c : ascii) (s : string) :
  Filters.capitalize_string (String c s) = String (upper_ascii c) s.
Proof. reflexivity. Qed.

Lemma capitalize_string_idemp (s : string) :
  Filters.capitalize_string (Filters.capitalize_string s)
  = Filters.capitalize_string s.
Proof.
  destruct s as [|c s]; [done|].
  by rewrite !capitalize_string_cons, upper_ascii_idemp.
Qed.

Lemma capitalize_string_length (s : string) :
  String.length (Filters.capitalize_string s) = String.length s.
Proof. by destruct s. Qed.

Lemma toUpperCase_capitalize_string (s : string) :
  toUpperCase (Filters.capitalize_string s) = toUpperCase s.
Proof.
  destruct s as [|c s]; [done|].
  rewrite capitalize_string_cons. cbn [toUpperCase].
  by rewrite upper_ascii_idemp.
Qed.

Lemma capitalize_string_toUpperCase (s : string) :
  Filters.capitalize_string (toUpperCase s) = toUpperCase s.
Proof.
  destruct s as [|c s]; [done|].
  cbn [toUpperCase]. rewrite capitalize_string_cons.
  by rewrite upper_ascii_idemp.
Qed.

Lemma upper_ascii_ascii (c : ascii) :
  Filters.is_ascii_char c = true → Filters.is_ascii_char (upper_ascii c) = true.
Proof. destruct c as [[] [] [] [] [] [] [] []]; done. Qed.

Lemma capitalize_string_ascii (s : string) :
  Filters.ascii_text s → Filters.ascii_text (Filters.capitalize_string s).
Proof.
  unfold Filters.ascii_text. destruct s as [|c s]; [done|].
  rewrite capitalize_string_cons. cbn [all_chars].
  intros [Hc Hs]%andb_prop. by rewrite upper_ascii_ascii, Hs.
Qed.

(** X1. On an input whose strings are ASCII text, [capitalize] is
    idempotent, and its result is again such an input: a string, an array
    (whose string elements are capitalized one by one) or anything else. *)
Theorem X1_capitalize_idempotent (input : value) :
  Filters.ascii_input input →
  Filters.capitalize (Filters.capitalize input) = Filters.capitalize input ∧
  Filters.ascii_input (Filters.capitalize input).
Proof.
  intros Hascii. split.
  - destruct input as [| | | |s|l| | |]; try reflexivity.
    + cbn [Filters.capitalize]. by rewrite capitalize_string_idemp.
    + cbn [Filters.capitalize]. f_equal. rewrite <- list_fmap_compose.
      apply list_fmap_ext. intros _ [| | | |s| | | |] _; try reflexivity.
      cbn. by rewrite capitalize_string_idemp.
  - destruct input as [| | | |s|l| | |]; try done.
    + by apply capitalize_string_ascii.
    + cbn [Filters.capitalize Filters.ascii_input] in *.
      apply Forall_fmap. eapply Forall_impl; [exact Hascii|].
      intros [| | | |s| | | |]; try done. apply capitalize_string_ascii.
Qed.

Lemma X1_capitalize_idempotent_witness :
  Filters.capitalize (Filters.capitalize (VArr [VStr "ann lee"; VNum 1]))
  = Filters.capitalize (VArr [VStr "ann lee"; VNum 1]).
Proof.
  apply (proj1 (X1_capitalize_idempotent (VArr [VStr "ann lee"; VNum 1])
                  ltac:(repeat constructor))).
Defined.

(** X2. On an input whose strings are ASCII text, [capitalize] and
    [toUpper] do not change what [length] reports. *)
Theorem X2_case_filters_keep_length (input : value) :
  Filters.ascii_input input →
  Filters.length (Filters.capitalize input) = Filters.length input ∧
  Filters.length (Filters.toUpper input) = Filters.length input.
Proof.
  intros _. split.
  - destruct input as [| | | |s|l| | |]; try reflexivity.
    + cbn [Filters.capitalize Filters.length].
      by rewrite capitalize_string_length.
    + cbn [Filters.capitalize Filters.length]. by rewrite length_fmap.
  - destruct input as [| | | |s|l| | |]; try reflexivity.
    cbn [Filters.toUpper Filters.length]. by rewrite toUpperCase_length.
Qed.

Lemma X2_case_filters_keep_length_witness :
  Filters.length (Filters.toUpper (VStr "strasse")) = Filters.length (VStr "strasse").
Proof.
  apply (proj2 (X2_case_filters_keep_length (VStr "strasse") ltac:(reflexivity))).
Defined.

(** X3. On an input whose strings are ASCII text, [capitalize] and
    [toUpper] commute, [toUpper] is idempotent, and on a string capitalizing
    before upper-casing changes nothing. *)
Theorem X3_case_filters_compose (input : value) :
  Filters.ascii_input input →
  Filters.toUpper (Filters.capitalize input)
  = Filters.capitalize (Filters.toUpper input) ∧
  Filters.toUpper (Filters.toUpper input) = Filters.toUpper input ∧
  (∀ s, input = VStr s →
        Filters.toUpper (Filters.capitalize input) = Filters.toUpper input).
Proof.
  intros _. split; [|split].
  - destruct input as [| | | |x|l| | |]; try reflexivity.
    cbn [Filters.capitalize Filters.toUpper].
    by rewrite toUpperCase_capitalize_string, capitalize_string_toUpperCase.
  - destruct input as [| | | |x|l| | |]; try reflexivity.
    cbn [Filters.toUpper]. by rewrite toUpperCase_idemp.
  - intros s ->. cbn [Filters.capitalize Filters.toUpper].
    by rewrite toUpperCase_capitalize_string.
Qed.

Lemma X3_case_filters_compose_witness :
  Filters.toUpper (Filters.capitalize (VStr "ann lee"))
  = Filters.toUpper (VStr "ann lee").
Proof.
  apply (proj2 (proj2 (X3_case_filters_compose (VStr "ann lee")
                         ltac:(reflexivity))) "ann lee" eq_refl).
Defined.

End FilterProps.

(** * [split] and [join] *)

Section SplitJoin.

Import JSExtra.

Lemma prefix_app (sep s : string) :
  String.prefix sep s = true → ∃ rest, s = sep +:+ rest.
Proof.
  revert s. induction sep as [|a sep IH]; intros s Hp.
  - by exists s.
  - destruct s as [|b s]; [done|]. cbn [String.prefix] in Hp.
    destruct (ascii_dec a b) as [->|_]; [|done].
    destruct (IH s Hp) as [rest ->]. by exists rest.
Qed.

Lemma split_at_skip (sep t rest : string) :
  split_at sep (t +:+ rest) (String.length t) = split_at sep rest 0.
Proof. induction t as [|c t IH]; [done|]. exact IH. Qed.

Lemma split_at_nonempty (sep s : string) (skip : nat) : split_at sep s skip ≠ [].
Proof.
  revert skip. induction s as [|c s IH]; intros skip; [done|].
  cbn [split_at]. destruct skip as [|k]; [|apply IH].
  destruct (String.prefix sep (String c s)); [done|].
  by destruct (split_at sep s 0).
Qed.

Lemma join_strings_cons (x : string) (l : list string) (sep : string) :
  l ≠ [] → join_strings (x :: l) sep = x +:+ sep +:+ join_strings l sep.
Proof. by destruct l. Qed.

Lemma join_strings_grow (c : ascii) (seg : string) (segs : list string)
    (sep : string) :
  join_strings (String c seg :: segs) sep
  = String c (join_strings (seg :: segs) sep).
Proof. by destruct segs. Qed.

Lemma append_length (s t : string) :
  String.length (s +:+ t) = (String.length s + String.length t)%nat.
Proof. induction s as [|c s IH]; [done|]. simpl. f_equal. exact IH. Qed.

Lemma join_split_at (sep : string) (n : nat) :
  sep ≠ "" →
  ∀ s, (String.length s ≤ n)%nat → join_strings (split_at sep s 0) sep = s.
Proof.
  intros Hsep. induction n as [|n IH]; intros s Hn.
  - destruct s; [done|]. cbn in Hn. lia.
  - destruct s as [|c s]; [done|]. cbn [split_at].
    destruct (String.prefix sep (String c s)) eqn:Hp.
    + destruct (prefix_app _ _ Hp) as [rest Hrest].
      destruct sep as [|c0 sep']; [done|].
      cbn in Hrest. injection Hrest as -> ->.
      replace (String.length (String c0 sep') - 1)%nat
        with (String.length sep') by (cbn [String.length]; lia).
      rewrite split_at_skip.
      rewrite join_strings_cons by apply split_at_nonempty.
      rewrite IH; [done|].
      cbn [String.length] in Hn. rewrite append_length in Hn. lia.
    + pose proof (split_at_nonempty sep s 0) as Hne.
      pose proof (IH s) as IHs.
      destruct (split_at sep s 0) as [|seg segs]; [done|].
      rewrite join_strings_grow, IHs; [done|]. cbn in Hn. lia.
Qed.

Lemma join_characters (s : string) :
  join_strings ((λ c, String c "") <$> list_ascii_of_string s) "" = s.
Proof.
  induction s as [|c s IH]; [done|].
  cbn [list_ascii_of_string]. csimpl.
  destruct (_ <$> list_ascii_of_string s) as [|x l].
  - cbn in IH. by rewrite <- IH.
  - by rewrite IH.
Qed.

Lemma join_String_split (s sep : string) :
  join_strings (String_split s sep) sep = s.
Proof.
  destruct sep as [|c sep]; [apply join_characters|].
  by apply (join_split_at _ (String.length s)).
Qed.

(** The split of [parseSort], for a separator of one character, is the
    general one. *)
Lemma String_split_one (s : string) (c : ascii) :
  String_split s (String c "") = split s c.
Proof.
  unfold String_split. induction s as [|a s IH]; [done|].
  cbn [split_at split String.prefix String.length].
  destruct (ascii_dec c a) as [->|Hne].
  - rewrite Ascii.eqb_refl. destruct s; cbn [Nat.sub]; by rewrite IH.
  - destruct (Ascii.eqb_spec a c) as [->|_]; [done|]. by rewrite IH.
Qed.

Lemma element_text_strings (F : value → string) (l : list string) :
  element_text F <$> (VStr <$> l) = l.
Proof. induction l as [|x l IH]; [done|]. csimpl. by f_equal. Qed.

(** X4. Splitting a string and joining the pieces with the same separator
    gives the string back, whatever the separator (the empty one
    included). *)
Theorem X4_join_after_split (Function_toString : value → string)
    (s sep : string) :
  Filters.join Function_toString (Filters.split (VStr s) sep) sep = VStr s.
Proof.
  cbn [Filters.split Filters.join]. unfold Array_join.
  by rewrite element_text_strings, join_String_split.
Qed.

Lemma includes_false_cons (c : ascii) (s sep : string) :
  includes (String c s) sep = false →
  String.prefix sep (String c s) = false ∧ includes s sep = false.
Proof. cbn [includes]. by intros [? ?]%orb_false_elim. Qed.

Lemma split_at_absent (sep s : string) :
  includes s sep = false → split_at sep s 0 = [s].
Proof.
  induction s as [|c s IH]; [done|].
  intros [Hp Hs]%includes_false_cons. cbn [split_at].
  by rewrite Hp, (IH Hs).
Qed.

(** X5. Edge cases of [split]: with a separator that is not empty the
    result always has at least one element, and a string in which the
    separator does not occur comes back as the only element; the empty
    separator gives one element per character. *)
Theorem X5_split_edges (s sep : string) :
  (sep ≠ "" →
   (∃ n, Filters.length (Filters.split (VStr s) sep) = VNum n ∧ 1 ≤ n) ∧
   (includes s sep = false → Filters.split (VStr s) sep = VArr [VStr s])) ∧
  Filters.length (Filters.split (VStr s) "") = Filters.length (VStr s).
Proof.
  split.
  - intros Hsep. destruct sep as [|c sep]; [done|].
    cbn [Filters.split Filters.length String_split]. split.
    + eexists. split; [reflexivity|]. rewrite length_fmap.
      pose proof (split_at_nonempty (String c sep) s 0).
      destruct (split_at (String c sep) s 0); [done|]. cbn. lia.
    + intros Habs. by rewrite split_at_absent.
  - cbn [Filters.split Filters.length String_split]. rewrite !length_fmap.
    do 2 f_equal. induction s as [|c s IH]; [done|]. cbn. by rewrite IH.
Qed.

Lemma X5_split_edges_witness :
  Filters.split (VStr "2024") "-" = VArr [VStr "2024"].
Proof.
  apply (proj1 (X5_split_edges "2024" "-")); [done|reflexivity].
Defined.

End SplitJoin.

(** * [default], alone and after [date] *)

Section DefaultProps.

Lemma default_same (d : value) : Filters.default d d = d.
Proof. unfold Filters.default. by destruct (Filters.blank d). Qed.

(** X6. [default] is idempotent, and with a fallback that is not blank its
    result is never blank ([null], [undefined], [''] or [[]]). *)
Theorem X6_default_fills_blanks (input defVal : value) :
  Filters.default (Filters.default input defVal) defVal
  = Filters.default input defVal ∧
  (Filters.blank defVal = false →
   Filters.blank (Filters.default input defVal) = false).
Proof.
  split.
  - unfold Filters.default at 2 3.
    destruct (Filters.blank input) eqn:Hb; [apply default_same|].
    unfold Filters.default. by rewrite Hb.
  - intros Hd. unfold Filters.default.
    by destruct (Filters.blank input) eqn:Hb.
Qed.

Lemma X6_default_fills_blanks_witness :
  Filters.blank (Filters.default (VArr []) (VStr "n/a")) = false.
Proof. by apply (proj2 (X6_default_fills_blanks (VArr []) (VStr "n/a"))). Defined.

Variable Date_parse : string → option Date.

(** X7. [date] consults the date parser on non-empty strings only: every
    falsy input gives the empty string, so that [default] after [date]
    yields the fallback for it ([0] and [false] included, which [default]
    alone would keep); any other input that is not a string is returned
    as it is; and an empty pattern stands for the default pattern. *)
Theorem X7_date_without_parsing (input defVal : value) (opts : option string) :
  (truthy input = false →
   date Date_parse input opts = VStr "" ∧
   Filters.default (date Date_parse input opts) defVal = defVal) ∧
  (truthy input = true → (∀ s, input ≠ VStr s) →
   date Date_parse input opts = input) ∧
  date Date_parse input (Some "") = date Date_parse input None.
Proof.
  split; [|split].
  - intros Hf.
    assert (Hd : date Date_parse input opts = VStr "").
    { destruct input as [| | | |s| | | |]; cbn [date]; rewrite ?Hf; try done. }
    by rewrite Hd.
  - intros Ht Hs. destruct input as [| | | |s| | | |]; cbn [date];
      rewrite ?Ht; try done. by destruct (Hs s).
  - reflexivity.
Qed.

End DefaultProps.

Lemma X7_date_without_parsing_witness :
  Filters.default (date Samples.parse_one (VNum 0) None) (VStr "n/a") = VStr "n/a" ∧
  date Samples.parse_one (VNum 1709647629) None = VNum 1709647629.
Proof.
  split.
  - by apply (proj1 (X7_date_without_parsing Samples.parse_one (VNum 0)
                       (VStr "n/a") None)).
  - apply (proj1 (proj2 (X7_date_without_parsing Samples.parse_one
                           (VNum 1709647629) (VStr "n/a") None))); [done|].
    intros s. discriminate.
Defined.

(** * [formatDate] on any pattern *)

Section PatternProps.

Import Pattern.

Lemma token_text_letter (t : token) :
  ∃ tail, token_text t = String (token_letter t) tail.
Proof. destruct t; eexists; reflexivity. Qed.

Lemma token_text_other (t t' : token) :
  t' ≠ t →
  all_chars (λ x, negb (Ascii.eqb x (token_letter t))) (token_text t') = true.
Proof. destruct t, t'; intros Hne; try reflexivity; by destruct Hne. Qed.

Lemma prefix_append (s t : string) : String.prefix s (s +:+ t) = true.
Proof.
  induction s as [|c s IH]; [by destruct t|].
  change (String c s +:+ t) with (String c (s +:+ t)). cbn [String.prefix].
  destruct (ascii_dec c c); [exact IH|done].
Qed.

Lemma slice_append (s t : string) : slice (s +:+ t) (String.length s) = t.
Proof. induction s as [|c s IH]; [done|]. exact IH. Qed.

Lemma replace_fill_first (t : token) (v : string) (ps : list piece) :
  Forall (free_piece (token_letter t)) ps →
  replace (render ps) (token_text t) v = render (fill_first t v ps).
Proof.
  destruct (token_text_letter t) as [tail Ht].
  induction 1 as [|p ps Hp _ IH].
  - cbn [render fill_first]. by rewrite Ht.
  - destruct p as [s|t']; cbn [render fill_first].
    + rewrite Ht, replace_skip by exact Hp. by rewrite <- Ht, IH.
    + destruct (decide (t' = t)) as [->|Hne].
      * rewrite replace_here by apply prefix_append.
        by rewrite slice_append.
      * rewrite Ht, replace_skip by (by apply token_text_other).
        by rewrite <- Ht, IH.
Qed.

Lemma free_fill_first (c : ascii) (t : token) (v : string) (ps : list piece) :
  all_chars (λ x, negb (Ascii.eqb x c)) v = true →
  Forall (free_piece c) ps →
  Forall (free_piece c) (fill_first t v ps).
Proof.
  intros Hv. induction 1 as [|p ps Hp Hps IH]; [constructor|].
  destruct p as [s|t']; cbn [fill_first].
  - by constructor.
  - destruct (decide (t' = t)); by constructor.
Qed.

Lemma literal_free (t : token) (ps : list piece) :
  Forall literal_piece ps → Forall (free_piece (token_letter t)) ps.
Proof.
  intros Hlit. eapply Forall_impl; [exact Hlit|].
  intros [s|t'] Hs; [|done]. cbn in *.
  revert Hs. apply all_chars_impl. intros c Hc.
  destruct (Ascii.eqb_spec c (token_letter t)) as [->|_]; [|done].
  by destruct t.
Qed.

Lemma token_value_free (d : Date) (t t' : token) :
  t ≠ A →
  all_chars (λ x, negb (Ascii.eqb x (token_letter t'))) (token_value d t) = true.
Proof.
  intros Ht. apply numeric_skips; [by destruct t'|].
  destruct t; try done; cbn [token_value];
    first [apply Number_toString_numeric | apply pad_numeric].
Qed.

Lemma formatDate_fill_all (d : Date) (ps : list piece) :
  Forall literal_piece ps →
  formatDate d (render ps) = render (fill_all d ps).
Proof.
  intros Hlit. unfold formatDate, fill_all, fill. cbv zeta.
  change (Number_toString (getFullYear d)) with (token_value d YYYY).
  change (pad (getMonth d + 1)) with (token_value d MM).
  change (pad (getDate d)) with (token_value d DD).
  change (pad (if Z.rem (getHours d) 12 =? 0 then 12 else Z.rem (getHours d) 12))
    with (token_value d hh).
  change (pad (getHours d)) with (token_value d HH).
  change (pad (getMinutes d)) with (token_value d mm).
  change (pad (getSeconds d)) with (token_value d ss).
  change (if 12 <=? getHours d then "PM" else "AM") with (token_value d A).
  change "YYYY" with (token_text YYYY). change "MM" with (token_text MM).
  change "DD" with (token_text DD). change "hh" with (token_text hh).
  change "HH" with (token_text HH). change "mm" with (token_text mm).
  change "ss" with (token_text ss). change "A" with (token_text A).
  repeat (rewrite replace_fill_first;
          [|repeat (apply free_fill_first; [by apply token_value_free|]);
            by apply literal_free]).
  reflexivity.
Qed.

Lemma fill_first_absent (t : token) (v : string) (ps : list piece) :
  t ∉ tokens_of ps → fill_first t v ps = ps.
Proof.
  induction ps as [|[s|t'] ps IH]; [done| |]; cbn [fill_first tokens_of omap list_omap].
  - intros Hin. by rewrite IH.
  - intros Hin. apply not_elem_of_cons in Hin as [Hne Hin].
    rewrite decide_False by done. by rewrite IH.
Qed.

Lemma fill_tokens_absent (d : Date) (t : token) (done : list token)
    (ps : list piece) :
  t ∉ tokens_of ps → fill_tokens d (t :: done) ps = fill_tokens d done ps.
Proof.
  unfold fill_tokens.
  induction ps as [|[s|t'] ps IH]; [done| |]; cbn [tokens_of omap list_omap];
    intros Hin; csimpl.
  - by rewrite IH.
  - apply not_elem_of_cons in Hin as [Hne Hin]. rewrite IH by done. f_equal.
    destruct (decide (t' ∈ done)) as [Hd|Hd].
    + rewrite decide_True; [done|by right].
    + rewrite decide_False; [done|].
      intros [?|?]%elem_of_cons; [by apply Hne|done].
Qed.

Lemma fill_tokens_step (d : Date) (t : token) (done : list token)
    (ps : list piece) :
  NoDup (tokens_of ps) →
  fill d t (fill_tokens d done ps) = fill_tokens d (t :: done) ps.
Proof.
  induction ps as [|[s|t'] ps IH]; [done| |]; cbn [tokens_of omap list_omap];
    intros Hnd.
  - unfold fill, fill_tokens in *. csimpl. by rewrite IH.
  - apply NoDup_cons in Hnd as [Hnin Hnd]. specialize (IH Hnd).
    unfold fill, fill_tokens in *. csimpl.
    destruct (decide (t' ∈ done)) as [Hd|Hd].
    + rewrite decide_True by (by right). cbn [fill_first]. by rewrite IH.
    + cbn [fill_first]. destruct (decide (t' = t)) as [->|Hne].
      * rewrite decide_True by (by left). f_equal.
        symmetry. by apply (fill_tokens_absent d t done ps).
      * rewrite decide_False; [by rewrite IH|].
        intros [?|?]%elem_of_cons; [by apply Hne|done].
Qed.

Lemma fill_tokens_nil (d : Date) (ps : list piece) : fill_tokens d [] ps = ps.
Proof.
  unfold fill_tokens. rewrite <- (list_fmap_id ps) at 2.
  apply list_fmap_ext. intros _ [s|t] _; [done|].
  rewrite decide_False; [done|]. apply not_elem_of_nil.
Qed.

Lemma fill_tokens_all (d : Date) (ps : list piece) :
  fill_tokens d [A; ss; mm; HH; hh; DD; MM; YYYY] ps = values d ps.
Proof.
  unfold fill_tokens, values. apply list_fmap_ext. intros _ [s|t] _; [done|].
  rewrite decide_True; [done|]. destruct t; compute_done.
Qed.

(** X8. On a pattern made of tokens and of literal text that holds none of
    the letters Y M D h H m s A, [formatDate] replaces the first occurrence
    of each token by its value and leaves the rest as it is; when no token
    occurs twice, the result is the pattern with every token replaced. *)
Theorem X8_formatDate_pattern (d : Date) (ps : list piece) :
  Forall literal_piece ps →
  formatDate d (render ps) = render (fill_all d ps) ∧
  (NoDup (tokens_of ps) → formatDate d (render ps) = render (values d ps)).
Proof.
  intros Hlit. split; [by apply formatDate_fill_all|].
  intros Hnd. rewrite formatDate_fill_all by done. f_equal.
  unfold fill_all. rewrite <- (fill_tokens_nil d ps) at 1.
  rewrite !fill_tokens_step by done. apply fill_tokens_all.
Qed.

Lemma X8_formatDate_pattern_witness :
  formatDate {| getFullYear := 2024; getMonth := 2; getDate := 5;
                getHours := 14; getMinutes := 7; getSeconds := 9 |}
             "YYYY-MM-DD (HH:mm)"
  = "2024-03-05 (14:07)".
Proof.
  refine (proj2 (X8_formatDate_pattern _
            [Tok YYYY; Text "-"; Tok MM; Text "-"; Tok DD; Text " (";
             Tok HH; Text ":"; Tok mm; Text ")"] _) _).
  - repeat constructor.
  - compute_done.
Defined.

End PatternProps.

(** * More on the row-request translator and the query *)

Section QueryProps.

Variable JSON_stringify : value → string.

(** X9. The translated filter has exactly the keys of the native filter
    model: no filter is dropped and none is invented. *)
Theorem X9_filter_keys (request : Request) :
  dom (q_filter (parseSort request)) = dom (default ∅ (filterModel request)).
Proof.
  apply set_eq. intros key. rewrite !elem_of_dom.
  unfold parseSort. cbn [q_filter]. rewrite fromEntries_lookup.
  by rewrite fmap_is_Some.
Qed.

(** X10. The query of [getRows] has the four parameters [filter], [limit],
    [offset] and [orderBy] and no other; the object sent as [filter] has the
    keys of the static parameters and those of the grid filters, and it is
    the translated filter itself when the definition has no static
    parameters. *)
Theorem X10_query_shape (http : TableHttpSpec) (request : Request) :
  dom (getRows_queryParams JSON_stringify http request)
  = {[ "filter"; "limit"; "offset"; "orderBy" ]} ∧
  dom (getRows_filter http (q_filter (parseSort request)))
  = dom (default ∅ (params http)) ∪ dom (default ∅ (filterModel request)) ∧
  (params http = None →
   getRows_filter http (q_filter (parseSort request))
   = q_filter (parseSort request)).
Proof.
  split; [|split].
  - unfold getRows_queryParams. cbv zeta.
    rewrite !dom_insert_L, dom_empty_L. set_solver.
  - unfold getRows_filter. by rewrite dom_union_L, X9_filter_keys.
  - intros Hp. unfold getRows_filter. rewrite Hp. cbn [default id from_option].
    apply (left_id_L ∅ (∪)).
Qed.

Lemma Number_toString_inj (n m : Z) :
  Number_toString n = Number_toString m → n = m.
Proof.
  intros Heq. apply DecimalZ.to_int_inj.
  assert (Hnn : ∀ z, NilZero.int_of_string (Number_toString z) = Some (Z.to_int z)).
  { intros z. apply NilZero.isi; destruct z; cbn; try discriminate;
      intros [= H]; by apply DecimalPos.Unsigned.to_uint_nonnil in H. }
  pose proof (Hnn n) as Hn. rewrite Heq, Hnn in Hn. congruence.
Qed.

(** X11. The numbers of a page can be read back from the query: two
    requests that give the same [limit] and [offset] parameters have the
    same limit and the same offset. *)
Theorem X11_paging_recoverable (http : TableHttpSpec) (r1 r2 : Request) :
  getRows_queryParams JSON_stringify http r1 !! "limit"
  = getRows_queryParams JSON_stringify http r2 !! "limit" →
  getRows_queryParams JSON_stringify http r1 !! "offset"
  = getRows_queryParams JSON_stringify http r2 !! "offset" →
  q_limit (parseSort r1) = q_limit (parseSort r2) ∧
  q_offset (parseSort r1) = q_offset (parseSort r2).
Proof.
  unfold getRows_queryParams. cbv zeta. intros Hl Ho.
  rewrite !(lookup_insert_ne _ "orderBy" "limit") in Hl by done.
  rewrite !(lookup_insert_ne _ "offset" "limit") in Hl by done.
  rewrite !lookup_insert_eq in Hl.
  rewrite !(lookup_insert_ne _ "orderBy" "offset") in Ho by done.
  rewrite !lookup_insert_eq in Ho.
  split; apply Number_toString_inj; congruence.
Qed.

End QueryProps.

Lemma X10_query_shape_witness :
  getRows_filter {| url := "/api/accounts"; params := None |}
    (q_filter (parseSort Samples.filtered_request))
  = q_filter (parseSort Samples.filtered_request).
Proof.
  by apply (proj2 (proj2 (X10_query_shape Samples.show_status
                            {| url := "/api/accounts"; params := None |}
                            Samples.filtered_request))).
Defined.

Lemma X11_paging_recoverable_witness :
  q_limit (parseSort Samples.filtered_request)
  = q_limit (parseSort {| startRow := Some 0; endRow := Some 50;
                          sortModel := Some []; filterModel := None |}).
Proof.
  by apply (X11_paging_recoverable Samples.show_status Samples.http_fixed_status).
Defined.

(** * The result of the hydration *)

Section HydratedColumns.

Import Hydrated.

Implicit Types (h : gmap positive (gmap string value)) (c l d : positive).
Implicit Types (obj o x : gmap string value) (act : option value).

Lemma get_valueFormatter_injected act o :
  get (injected act o) "valueFormatter" = get o "valueFormatter".
Proof.
  unfold injected, get. destruct (injects act o); [|done].
  by rewrite get_with_action.
Qed.

Lemma injected_idemp act o : injected act (injected act o) = injected act o.
Proof.
  unfold injected at 2 3. destruct (injects act o) eqn:Hi.
  - unfold injected. rewrite injects_with_action by done.
    apply with_action_idemp.
  - unfold injected. by rewrite Hi.
Qed.

Lemma injects_injected act o : injects act (injected act o) = injects act o.
Proof.
  unfold injected. destruct (injects act o) eqn:Hi; [|done].
  by apply injects_with_action.
Qed.

Lemma has_formatter_injected act o :
  has_formatter (injected act o) = has_formatter o.
Proof. unfold has_formatter. by rewrite get_valueFormatter_injected. Qed.

Lemma column_def_injected act o :
  column_def act (injected act o) = column_def act o.
Proof.
  unfold column_def.
  by rewrite has_formatter_injected, injected_idemp, get_valueFormatter_injected.
Qed.

(** The visit of one column, told with [injected] and [column_def]. *)
Lemma hydrate_column_result act h c x :
  h !! c = Some x →
  let h1 := if injects act x then <[c := injected act x]> h else h in
  h1 !! c = Some (injected act x) ∧
  hydrate_column act h c =
  if has_formatter x
  then (<[fresh (dom h1) := column_def act x]> h1, fresh (dom h1))
  else (h1, c).
Proof.
  intros Hc h1.
  assert (H1 : h1 !! c = Some (injected act x)).
  { unfold h1, injected. destruct (injects act x); [apply lookup_insert_eq|done]. }
  split; [exact H1|].
  rewrite hydrate_column_unfold. cbv zeta. rewrite Hc. cbn [default id from_option].
  replace (if injects act x then <[c:=with_action act x]> h else h) with h1
    by (unfold h1, injected; by destruct (injects act x)).
  rewrite H1. cbn [default id from_option].
  rewrite get_valueFormatter_injected.
  unfold column_def, has_formatter.
  destruct (truthy (get x "valueFormatter")); [|done].
  destruct (isArray (get x "valueFormatter")); [|done].
  by destruct (_ =? 0)%nat.
Qed.

Lemma evolved_injected act h0 h l o x :
  evolved act h0 h → h0 !! l = Some o → h !! l = Some x →
  injected act x = injected act o.
Proof.
  intros Hev Hl Hx. destruct (Hev l o Hl) as [H|[Hi H]]; rewrite H in Hx;
    injection Hx as <-; [done|].
  unfold injected at 2. rewrite Hi.
  unfold injected. rewrite injects_with_action by done. apply with_action_idemp.
Qed.

Lemma evolved_lookup act h0 h l o :
  evolved act h0 h → h0 !! l = Some o → ∃ x, h !! l = Some x.
Proof. intros Hev Hl. destruct (Hev l o Hl) as [H|[_ H]]; eauto. Qed.

Lemma evolved_refl act h : evolved act h h.
Proof. intros l o Hl. by left. Qed.

Lemma evolved_step act h0 h c :
  evolved act h0 h → evolved act h0 (hydrate_column act h c).1.
Proof.
  intros Hev l o Hl.
  destruct (evolved_lookup act h0 h l o Hev Hl) as [x Hx].
  rewrite (hydrate_column_lookup act h c l x Hx).
  destruct (decide (l = c)) as [->|_]; [|rewrite <- Hx; by apply Hev].
  change (if injects act x then with_action act x else x) with (injected act x).
  rewrite (evolved_injected act h0 h c o x Hev Hl Hx).
  unfold injected. destruct (injects act o) eqn:Hi; [by right|by left].
Qed.

Lemma fromSerialized_cons act h c rest :
  fromSerializedToColumnDef (c :: rest) act h =
  ((fromSerializedToColumnDef rest act (hydrate_column act h c).1).1,
   (hydrate_column act h c).2
   :: (fromSerializedToColumnDef rest act (hydrate_column act h c).1).2).
Proof.
  cbn [fromSerializedToColumnDef].
  destruct (hydrate_column act h c) as [h1 d]. cbn [fst snd].
  by destruct (fromSerializedToColumnDef rest act h1).
Qed.

(** An object that the rest of the array cannot change again. *)
Lemma settled act (rest : list positive) h l x :
  h !! l = Some x →
  (l ∈ rest → injected act x = x) →
  (fromSerializedToColumnDef rest act h).1 !! l = Some x.
Proof.
  intros Hl Hfix.
  destruct (fromSerialized_hydrated_as act rest h l x Hl) as (o' & Ho' & Hok).
  rewrite Ho'. f_equal.
  destruct Hok as [->|(Hin & Hi & ->)]; [done|].
  specialize (Hfix Hin). unfold injected in Hfix. by rewrite Hi in Hfix.
Qed.

Lemma hydrated_columns_from act h0 (rest : list positive) :
  (∀ c, c ∈ rest → is_Some (h0 !! c)) →
  ∀ h, evolved act h0 h →
  ∀ i c o, rest !! i = Some c → h0 !! c = Some o →
  ∃ d, (fromSerializedToColumnDef rest act h).2 !! i = Some d ∧
       (fromSerializedToColumnDef rest act h).1 !! d = Some (column_def act o) ∧
       (if has_formatter o then h0 !! d = None else d = c).
Proof.
  induction rest as [|c0 rest IH]; intros Hwf h Hev i c o Hi Hc; [done|].
  rewrite fromSerialized_cons. cbn [fst snd].
  destruct i as [|i].
  - injection Hi as ->.
    destruct (evolved_lookup act h0 h c o Hev Hc) as [x Hx].
    pose proof (evolved_injected act h0 h c o x Hev Hc Hx) as Hinj.
    destruct (hydrate_column_result act h c x Hx) as [H1 Hres].
    set (h1 := if injects act x then <[c := injected act x]> h else h) in *.
    assert (Hform : has_formatter x = has_formatter o).
    { rewrite <- (has_formatter_injected act x), Hinj.
      apply has_formatter_injected. }
    assert (Hdef : column_def act x = column_def act o).
    { rewrite <- (column_def_injected act x), Hinj.
      apply column_def_injected. }
    rewrite Hres, Hform. destruct (has_formatter o) eqn:Hf; cbn [fst snd].
    + exists (fresh (dom h1)). split; [done|].
      assert (Hfresh : h1 !! fresh (dom h1) = None)
        by (apply not_elem_of_dom, is_fresh).
      assert (H0 : h0 !! fresh (dom h1) = None).
      { destruct (h0 !! fresh (dom h1)) as [o0|] eqn:E; [|done].
        assert (evolved act h0 h1) as Hev1.
        { intros l o1 Hl. unfold h1. destruct (injects act x) eqn:Hix; [|by apply Hev].
          destruct (decide (l = c)) as [->|Hne].
          - rewrite lookup_insert_eq. rewrite Hinj.
            assert (o1 = o) as -> by congruence.
            unfold injected. destruct (injects act o); [by right|by left].
          - rewrite lookup_insert_ne by done. by apply Hev. }
        destruct (evolved_lookup act h0 h1 _ o0 Hev1 E) as [y Hy]. congruence. }
      split; [|exact H0].
      rewrite Hdef. apply settled; [apply lookup_insert_eq|].
      intros Hin. destruct (Hwf _ (list_elem_of_further _ _ _ Hin)) as [? ?].
      congruence.
    + exists c. split; [done|]. split; [|done].
      unfold column_def. rewrite Hf. rewrite <- Hinj.
      apply settled; [exact H1|]. intros _. apply injected_idemp.
  - apply IH; [|by apply evolved_step|done..].
    intros c' Hc'. apply Hwf. by right.
Qed.

Lemma fromSerialized_length act (serialized : list positive) h :
  length (fromSerializedToColumnDef serialized act h).2 = length serialized.
Proof.
  revert h. induction serialized as [|c rest IH]; intros h; [done|].
  rewrite fromSerialized_cons. cbn [snd length]. by rewrite IH.
Qed.

(** X12. Given an array whose columns are all in the heap, the hydration
    returns one column definition per column, in the same order.  The
    definition of a column is the column with the callback injected (where
    it has a [cellRenderer] key and parameters, and a callback is given)
    and, where its [valueFormatter] is a non-empty array, with the formatter
    that captures this array in its place.  A column without such an array is
    returned as the very object of the input; a column with one is returned
    as a new object, at a location that was not in use. *)
Theorem X12_hydrated_columns act (serialized : list positive) h :
  (∀ c, c ∈ serialized → is_Some (h !! c)) →
  length (fromSerializedToColumnDef serialized act h).2 = length serialized ∧
  ∀ i c o, serialized !! i = Some c → h !! c = Some o →
    ∃ d, (fromSerializedToColumnDef serialized act h).2 !! i = Some d ∧
         (fromSerializedToColumnDef serialized act h).1 !! d
         = Some (column_def act o) ∧
         (if has_formatter o then h !! d = None else d = c).
Proof.
  intros Hwf. split; [apply fromSerialized_length|].
  apply hydrated_columns_from; [exact Hwf|apply evolved_refl].
Qed.

Lemma X12_hydrated_columns_witness :
  ∃ d, (fromSerializedToColumnDef [1%positive] Samples.on_option_clicked
          Samples.one_column_heap).2 !! 0%nat = Some d ∧
       (fromSerializedToColumnDef [1%positive] Samples.on_option_clicked
          Samples.one_column_heap).1 !! d
       = Some (column_def Samples.on_option_clicked Samples.menu_column) ∧
       Samples.one_column_heap !! d = None.
Proof.
  assert (Hwf : ∀ c, c ∈ [1%positive] →
                     is_Some (Samples.one_column_heap !! c)).
  { intros c ->%list_elem_of_singleton. by eexists. }
  destruct (proj2 (X12_hydrated_columns Samples.on_option_clicked [1%positive]
                     Samples.one_column_heap Hwf)
              0%nat 1%positive Samples.menu_column eq_refl eq_refl)
    as (d & Hd & Hh & Hnew).
  exists d. split; [exact Hd|]. split; [exact Hh|exact Hnew].
Defined.

Lemma visited_from act h0 (rest : list positive) c o :
  h0 !! c = Some o →
  ∀ h, evolved act h0 h → c ∈ rest →
       (fromSerializedToColumnDef rest act h).1 !! c = Some (injected act o).
Proof.
  intros Hc. induction rest as [|c0 rest IH]; intros h Hev Hin.
  - by apply elem_of_nil in Hin.
  - rewrite fromSerialized_cons. cbn [fst].
    apply elem_of_cons in Hin as [->|Hin].
    + destruct (evolved_lookup act h0 h c0 o Hev Hc) as [x Hx].
      apply settled; [|intros _; apply injected_idemp].
      rewrite (hydrate_column_lookup act h c0 c0 x Hx).
      rewrite decide_True by done. f_equal.
      apply (evolved_injected act h0 h c0 o x Hev Hc Hx).
    + apply IH; [by apply evolved_step|done].
Qed.

(** X13. Hydrating the same array a second time, with the same callback,
    leaves every object that is in the heap after the first hydration with
    the contents it had, and yields column definitions with the same
    contents as the first ones.  This is a statement about contents: the
    second hydration assigns [cellRendererParams] of an injected column
    again, to a new object whose members are those of the one it replaces;
    nested objects are held by their contents here, so that the two are
    equal. *)
Theorem X13_second_hydration act (serialized : list positive) h :
  (∀ c, c ∈ serialized → is_Some (h !! c)) →
  let r1 := fromSerializedToColumnDef serialized act h in
  let r2 := fromSerializedToColumnDef serialized act r1.1 in
  (∀ l o', r1.1 !! l = Some o' → r2.1 !! l = Some o') ∧
  (∀ i c o, serialized !! i = Some c → h !! c = Some o →
     ∃ d1 d2, r1.2 !! i = Some d1 ∧ r2.2 !! i = Some d2 ∧
              r1.1 !! d1 = Some (column_def act o) ∧
              r2.1 !! d2 = Some (column_def act o)).
Proof.
  intros Hwf r1 r2.
  assert (Hvis : ∀ c o, c ∈ serialized → h !! c = Some o →
                        r1.1 !! c = Some (injected act o)).
  { intros c o Hin Hc.
    by apply (visited_from act h serialized c o Hc h (evolved_refl act h)). }
  split.
  - intros l o' Hl. apply settled; [exact Hl|].
    intros Hin. destruct (Hwf l Hin) as [o Ho].
    rewrite (Hvis l o Hin Ho) in Hl. injection Hl as <-.
    apply injected_idemp.
  - intros i c o Hi Hc.
    assert (Hin : c ∈ serialized) by (by eapply list_elem_of_lookup_2).
    destruct (hydrated_columns_from act h serialized Hwf h (evolved_refl act h)
                i c o Hi Hc) as (d1 & Hd1 & Hh1 & _).
    assert (Hwf1 : ∀ c', c' ∈ serialized → is_Some (r1.1 !! c')).
    { intros c' Hin'. destruct (Hwf c' Hin') as [o' Ho'].
      rewrite (Hvis c' o' Hin' Ho'). by eexists. }
    destruct (hydrated_columns_from act r1.1 serialized Hwf1 r1.1
                (evolved_refl act r1.1) i c (injected act o) Hi (Hvis c o Hin Hc))
      as (d2 & Hd2 & Hh2 & _).
    exists d1, d2. rewrite column_def_injected in Hh2. done.
Qed.

Lemma X13_second_hydration_witness :
  (fromSerializedToColumnDef [1%positive] Samples.on_option_clicked
     (fromSerializedToColumnDef [1%positive] Samples.on_option_clicked
        Samples.one_column_heap).1).1 !! 1%positive
  = Some (with_action Samples.on_option_clicked Samples.menu_column).
Proof.
  assert (Hwf : ∀ c, c ∈ [1%positive] →
                     is_Some (Samples.one_column_heap !! c)).
  { intros c ->%list_elem_of_singleton. by eexists. }
  apply (proj1 (X13_second_hydration Samples.on_option_clicked [1%positive]
                  Samples.one_column_heap Hwf)).
  rewrite fromSerialized_cons_heap. cbn [fromSerializedToColumnDef fst].
  by rewrite (hydrate_column_lookup Samples.on_option_clicked
                Samples.one_column_heap 1%positive 1%positive
                Samples.menu_column eq_refl).
Defined.

(** C3 (as the code has it). Every object that is in the heap before the
    hydration is still there after it, with every field other than
    [cellRendererParams] unchanged.  It is unchanged altogether when no
    action callback is given, when it is not one of the serialized columns,
    or when it has no [cellRenderer] key or no (truthy)
    [cellRendererParams].  Otherwise, that is for a serialized column with a
    [cellRenderer] key and parameters when a callback is given, the
    hydration does assign to its [cellRendererParams] a copy of the former
    parameters in which [onAction] is the callback. *)
Theorem C3_hydration_frame act (serialized : list positive) h l o :
  h !! l = Some o →
  ∃ o', (fromSerializedToColumnDef serialized act h).1 !! l = Some o' ∧
        (∀ k, k ≠ "cellRendererParams" → o' !! k = o !! k) ∧
        (act = None → o' = o) ∧
        (l ∉ serialized → o' = o) ∧
        (injects act o = false → o' = o) ∧
        (l ∈ serialized → injects act o = true →
         o' = with_action act o ∧
         o' !! "cellRendererParams"
         = Some (VObj (<["onAction" := default VUndefined act]>
                         (spread (get o "cellRendererParams")))) ∧
         get (props_of (get o' "cellRendererParams")) "onAction"
         = default VUndefined act) ∧
        hydrated_as act serialized l o o'.
Proof.
  intros Hl.
  destruct (fromSerialized_hydrated_as act serialized h l o Hl) as (o' & Ho' & Hok).
  exists o'. split; [exact Ho'|].
  split_and!; try exact Hok.
  - intros k Hk. destruct Hok as [->|(_ & _ & ->)]; [done|].
    by apply get_with_action.
  - intros ->. destruct Hok as [->|(_ & Hinj & _)]; [done|].
    unfold injects in Hinj. cbn in Hinj.
    by rewrite andb_false_r in Hinj.
  - intros Hnin. by destruct Hok as [->|(Hin & _ & _)].
  - intros Hinj. destruct Hok as [->|(_ & Hinj' & _)]; [done|congruence].
  - intros Hin Hinj.
    pose proof (visited_from act h serialized l o Hl h (evolved_refl act h) Hin)
      as Hvis.
    rewrite Ho' in Hvis. injection Hvis as ->.
    unfold injected. rewrite Hinj.
    split; [done|]. unfold with_action, get.
    rewrite !lookup_insert_eq. cbn [default id from_option props_of].
    by rewrite lookup_insert_eq.
Qed.

Lemma C3_hydration_frame_witness :
  ∃ o', (fromSerializedToColumnDef [1%positive] Samples.on_option_clicked
           Samples.one_column_heap).1 !! 1%positive = Some o'
        ∧ o' !! "field" = Some (VStr "name")
        ∧ get (props_of (get o' "cellRendererParams")) "onAction" = VAction 0.
Proof.
  destruct (C3_hydration_frame Samples.on_option_clicked [1%positive]
              Samples.one_column_heap 1%positive Samples.menu_column eq_refl)
    as (o' & Ho' & Hk & _ & _ & _ & Hpos & _).
  exists o'. split; [exact Ho'|]. split; [by rewrite Hk|].
  apply Hpos; [by left|reflexivity].
Defined.

(** C3 as stated fails when an action callback is given: the column object
    of the caller has another [cellRendererParams] after the hydration, one
    that holds [onAction]. *)
Lemma C3_counterexample :
  Samples.one_column_heap !! 1%positive = Some Samples.menu_column ∧
  (fromSerializedToColumnDef [1%positive] Samples.on_option_clicked
     Samples.one_column_heap).1 !! 1%positive
  = Some (with_action Samples.on_option_clicked Samples.menu_column) ∧
  get Samples.menu_column "cellRendererParams"
  = VObj {[ "items" := VArr [VStr "edit"] ]} ∧
  get (with_action Samples.on_option_clicked Samples.menu_column)
      "cellRendererParams"
  = VObj {[ "items" := VArr [VStr "edit"]; "onAction" := VAction 0 ]} ∧
  (fromSerializedToColumnDef [1%positive] Samples.on_option_clicked
     Samples.one_column_heap).1 !! 1%positive
  ≠ Samples.one_column_heap !! 1%positive.
Proof.
  assert (H1 : Samples.one_column_heap !! 1%positive = Some Samples.menu_column)
    by reflexivity.
  assert (H2 : (fromSerializedToColumnDef [1%positive] Samples.on_option_clicked
                  Samples.one_column_heap).1 !! 1%positive
               = Some (with_action Samples.on_option_clicked Samples.menu_column)).
  { rewrite fromSerialized_cons_heap. cbn [fromSerializedToColumnDef fst].
    by rewrite (hydrate_column_lookup _ _ _ _ _ H1). }
  split; [exact H1|]. split; [exact H2|].
  split; [reflexivity|]. split; [by vm_compute|].
  rewrite H1, H2. intros H.
  apply (f_equal (λ found : option (gmap string value),
                    props_of (get (default ∅ found) "cellRendererParams")
                    !! "onAction")) in H.
  vm_compute in H. discriminate H.
Qed.

End HydratedColumns.

(** * What a formatter can see *)

Section FormatterScope.

Variable compile :
  value → outcome (gmap string value → gmap string value * outcome value).

(** X14. The result of a formatter depends on its [params] through the
    members [api], [colDef], [node] and [value] only: two parameter objects
    that agree on these four give the same outcome, whatever else they
    hold ([data], [column], [context]). *)
Theorem X14_formatter_reads_four_members (vf : list value)
    (params params' : gmap string value) :
  get params "api" = get params' "api" →
  get params "colDef" = get params' "colDef" →
  get params "node" = get params' "node" →
  get params "value" = get params' "value" →
  call compile (VFormatter vf) params = call compile (VFormatter vf) params'.
Proof.
  intros Ha Hc Hn Hv. cbn [call]. unfold valueFormatter, make_scope.
  by rewrite Ha, Hc, Hn, Hv.
Qed.

End FormatterScope.

Lemma X14_formatter_reads_four_members_witness :
  call Samples.engine (VFormatter [VStr "colDef.field"; VStr "value"])
       Samples.cell_params
  = call Samples.engine (VFormatter [VStr "colDef.field"; VStr "value"])
         (<["data" := VObj {[ "name" := VStr "bob" ]}]> Samples.cell_params).
Proof.
  by apply (X14_formatter_reads_four_members Samples.engine).
Defined.

(** * The data source and the component *)

Section ComponentProps.

Import Component.

(** X15. Once [fetch] has settled, [getRows] calls [success] at most once
    and [fail] at most once, and at least one of them.  [success] is called
    exactly when the body of the response parses to a value other than
    [null], with its [data] and [count] members, whatever the status of the
    response; when the callbacks of the grid return normally, exactly one of
    [success] and [fail] is called, and otherwise [fail] follows
    [success]. *)
Theorem X15_getRows_outcome (grid : Grid) (reply : settled (Response value)) :
  let calls := getRows_calls grid reply in
  (count is_success calls ≤ 1)%nat ∧
  (count is_fail calls ≤ 1)%nat ∧
  (1 ≤ count is_success calls + count is_fail calls)%nat ∧
  (count is_success calls = 1%nat ↔ is_Some (rows_of reply)) ∧
  (∀ rowData rowCount, rows_of reply = Some (rowData, rowCount) →
     head calls = Some (CallSuccess rowData rowCount)) ∧
  ((∀ d n, success_returns grid d n = true) →
   sizeColumnsToFit_returns grid = true →
   (count is_success calls + count is_fail calls = 1)%nat) ∧
  (∀ rowData rowCount, rows_of reply = Some (rowData, rowCount) →
     success_returns grid rowData rowCount
     && sizeColumnsToFit_returns grid = false →
     last calls = Some CallFail) ∧
  (∀ res b, getRows_calls grid
              (Fulfilled {| ok := b; statusText := statusText res;
                            json := json res |})
            = getRows_calls grid (Fulfilled res)).
Proof.
  intros calls. unfold calls, getRows_calls, rows_of.
  destruct reply as [res|r]; [|cbn; repeat split; try lia; try done;
                                by intros [? ?]].
  split_and!; try done;
    destruct (json res) as [result|r]; cbn;
    try (repeat split; try lia; try done; by intros [? ?]);
    destruct (member result "data") as [d|], (member result "count") as [n|]; cbn;
    try (repeat split; try lia; try done; by intros [? ?]);
    try (destruct (success_returns grid d n) eqn:Hs,
                  (sizeColumnsToFit_returns grid) eqn:Hz; cbn;
         repeat split; try lia; try done; try (by eexists);
         try (intros Hall; rewrite Hall in Hs; done);
         try (by intros ? ? [= <- <-]);
         try (intros ? ? [= <- <-]; rewrite Hs, ?Hz; done)).
Qed.

Lemma X15_getRows_outcome_witness :
  let calls :=
    getRows_calls ComponentSamples.quiet_grid
      (ComponentSamples.not_found value
         (Fulfilled (VObj {[ "error" := VStr "no such table" ]}))) in
  (count is_success calls + count is_fail calls = 1)%nat ∧
  head calls = Some (CallSuccess VUndefined VUndefined).
Proof.
  intros calls.
  pose proof (X15_getRows_outcome ComponentSamples.quiet_grid
                (ComponentSamples.not_found value
                   (Fulfilled (VObj {[ "error" := VStr "no such table" ]}))))
    as (_ & _ & _ & _ & Hhead & Hone & _ & _).
  split.
  - exact (Hone (λ _ _, eq_refl) eq_refl).
  - exact (Hhead VUndefined VUndefined eq_refl).
Defined.




End ComponentProps.

(** * The saved column state and the default sort *)

Section SavedState.

Import Component.

Variable JSON_parse : string → option value.
Variable JSON_stringify : value → string.

(** X17. The column state that [handleColumnChanged] saves under the URL of
    the table is the one that [handleGridReady] applies on the next start,
    after the data source is set and the default sort applied, and before
    [onGridReady] is called (given that [JSON.parse] reads back what
    [JSON.stringify] wrote).  Nothing is saved while the grid is not ready,
    and a saved text that does not parse is skipped with a warning without
    stopping the handler. *)
Theorem X17_saved_state_round_trip (url : string) (onGridReady : bool)
    (state : AgTableState) (items : gmap string string)
    (columnState : value) :
  JSON_parse (JSON_stringify columnState) = Some columnState →
  JSON_stringify columnState ≠ "" →
  handleGridReady JSON_parse url onGridReady state
    (handleColumnChanged JSON_stringify true url columnState (Some items))
  = (handleGridReady JSON_parse url false state None
     ++ ApplyColumnState columnState
     :: (if onGridReady then [OnGridReady] else []))%list ∧
  handleColumnChanged JSON_stringify false url columnState (Some items)
  = Some items ∧
  (∀ savedState, items !! url = Some savedState → savedState ≠ "" →
     JSON_parse savedState = None →
     handleGridReady JSON_parse url onGridReady state (Some items)
     = (handleGridReady JSON_parse url false state None
        ++ Warn "Could not restore saved table state"
        :: (if onGridReady then [OnGridReady] else []))%list).
Proof.
  intros Hrt Hne. split_and!.
  - unfold handleGridReady, handleColumnChanged. cbv zeta.
    rewrite lookup_insert_eq, Hrt. cbn [truthy].
    destruct (String.eqb_spec (JSON_stringify columnState) "") as [|_]; [done|].
    cbn [negb]. by rewrite !app_nil_r, <- !app_assoc.
  - reflexivity.
  - intros savedState Hitem Hs Hp. unfold handleGridReady. cbv zeta.
    rewrite Hitem, Hp. cbn [truthy].
    destruct (String.eqb_spec savedState "") as [|_]; [done|].
    cbn [negb]. by rewrite !app_nil_r, <- !app_assoc.
Qed.

(** X18. With a default sort in the state, the last column state applied
    once the grid is ready and its first data rendered is the default sort:
    [handleFirstDataRendered] applies it again, after any saved state.
    Before the grid is ready, [sortGrid], [refreshData] and the selection
    handler do nothing. *)
Theorem X18_default_sort_applied_last (url : string) (onGridReady : bool)
    (state : AgTableState) (storage : option (gmap string string))
    (s : SortModelItem) :
  state_defaultSort state = Some s →
  last (List.filter (λ e, match e with ApplyColumnState _ => true | _ => false end)
          (handleGridReady JSON_parse url onGridReady state storage
           ++ handleFirstDataRendered true state)%list)
  = Some (ApplyColumnState (sort_state (colId s) (sort s))) ∧
  sortGrid false (colId s) (sort s) = [] ∧
  refreshData false state = [] ∧
  (∀ b rows, handleSelectionChanged false b rows = []).
Proof.
  intros Hs. split_and!; try done.
  rewrite List.filter_app. unfold handleFirstDataRendered, apply_defaultSort.
  rewrite Hs. cbn [sortGrid List.filter]. apply last_snoc.
Qed.

End SavedState.

Lemma X17_saved_state_round_trip_witness :
  Component.handleGridReady Samples.read_state "/defs/accounts" true
    Component.initial_state
    (Component.handleColumnChanged Samples.show_state true "/defs/accounts"
       (VArr [VObj {[ "colId" := VStr "name"; "sort" := VStr "asc" ]}])
       (Some ∅))
  = [Component.ApplyColumnState
       (VArr [VObj {[ "colId" := VStr "name"; "sort" := VStr "asc" ]}]);
     Component.OnGridReady].
Proof.
  by apply (proj1 (X17_saved_state_round_trip Samples.read_state
                     Samples.show_state "/defs/accounts" true
                     Component.initial_state ∅
                     (VArr [VObj {[ "colId" := VStr "name"; "sort" := VStr "asc" ]}])
                     eq_refl ltac:(discriminate))).
Defined.

Lemma X18_default_sort_applied_last_witness :
  last (List.filter
          (λ e, match e with Component.ApplyColumnState _ => true | _ => false end)
          (Component.handleGridReady Samples.read_state "/defs/accounts" true
             ComponentSamples.newest_first ComponentSamples.saved_by_name
           ++ Component.handleFirstDataRendered true
                ComponentSamples.newest_first)%list)
  = Some (Component.ApplyColumnState (Component.sort_state "createdAt" "desc")).
Proof.
  by apply (proj1 (X18_default_sort_applied_last Samples.read_state
                     "/defs/accounts" true ComponentSamples.newest_first
                     ComponentSamples.saved_by_name
                     {| colId := "createdAt"; sort := "desc" |} eq_refl)).
Defined.
